(** * A categorical bar chart visual: view-model builder and renderer

    Shallow embedding of [src/visual.ts] (module [powerbi.extensibility.visual]):
    the settings lookup [getOptionValue], the data transformation
    [visualTransform], and the [Visual] class with its [update] method and the
    click handler it installs on every bar.

    JavaScript numbers are IEEE 754 binary64 values, modelled by the kernel's
    primitive floats.  Objects used as dictionaries are finite maps keyed by
    strings, holding the properties they store; what a value inherits is
    asked of the runtime.  A JavaScript exception is an explicit outcome of a
    computation. *)

From Stdlib Require Import ZArith Floats.PrimFloat Floats.SpecFloat Floats.FloatOps Numbers.Cyclic.Int63.Uint63.
From stdpp Require Import gmap strings pretty list fin_maps.

Open Scope list_scope.
Set Warnings "-register-all,-clear-no-such-hyp,-inexact-float".

(** ** JavaScript values *)

(** Runtime values.  [VObj] is a plain object, given by the data properties
    it stores, which is what the host deserialises from the report
    definition.  [VBuiltin] is an object of the runtime itself, such as a
    built-in function or a prototype, known by its name; a property read
    can return one, since a plain object inherits the members of
    [Object.prototype]. *)
Inductive JsVal :=
| VUndefined
| VNull
| VBool (b : bool)
| VNum (x : float)
| VStr (s : string)
| VObj (m : gmap string JsVal)
| VBuiltin (name : string).

Definition is_nan (x : float) : bool := negb (PrimFloat.eqb x x).

(** ToBoolean: the test performed by [if (v)] and by [!v]. *)
Definition toBoolean (v : JsVal) : bool :=
  match v with
  | VUndefined | VNull => false
  | VBool b => b
  | VNum x => negb (PrimFloat.eqb x 0 || is_nan x)
  | VStr s => negb (String.eqb s "")
  | VObj _ | VBuiltin _ => true
  end.

(** [v == undefined]: loose equality with [undefined] holds for [undefined]
    and [null] only. *)
Definition loose_eq_undefined (v : JsVal) : bool :=
  match v with
  | VUndefined | VNull => true
  | _ => false
  end.

(** ** Completions: a value, or a thrown exception *)

Inductive JsError := TypeError.

Inductive completion (A : Type) :=
| Normal (a : A)
| Throw (e : JsError).
Arguments Normal {A} a.
Arguments Throw {A} e.

#[global] Instance completion_ret : MRet completion := fun A a => Normal a.
#[global] Instance completion_bind : MBind completion := fun A B f c =>
  match c with
  | Normal a => f a
  | Throw e => Throw e
  end.

#[global] Instance completion_fmap : FMap completion := fun A B f c =>
  match c with
  | Normal a => Normal (f a)
  | Throw e => Throw e
  end.

(** ** The scales of d3 *)

(** A scale is the data it was configured with; what calling it returns is
    computed by the library, see [Runtime]. *)
Record LinearScale := {
  linear_domain : JsVal * JsVal;
  linear_range : float * float;
}.

Record OrdinalScale := {
  ordinal_domain : list JsVal;
  band_interval : float * float;
  padding : float;
  outerPadding : float;
}.

(** ** The runtime *)

(** What the JavaScript runtime and the d3 library compute and this
    development leaves uninterpreted: the decimal form of a number, the
    members of the built-in objects, and the arithmetic of the scales and of
    the axis component.

    [inherited v k] is the result of the read [v[k]] when [v] stores no
    property [k] itself: for a plain object the member of that name of
    [Object.prototype], which is the same for every plain object and is asked
    for the empty one; for a boolean, a number or a string the property of
    its wrapper ([length], an index) or of its prototype; for a built-in
    object any of its members.  The read may run a getter, which may throw;
    it is [undefined] when there is no such member.

    The two laws say that no built-in object has a member named after the
    setting the visual reads. *)
Class Runtime := {
  number_to_string : float → string;          (* String(x) *)
  builtin_to_string : string → string;         (* String(b), b a built-in object *)
  inherited : JsVal → string → completion JsVal;
  linear : LinearScale → JsVal → float;        (* yScale(v) *)
  band : OrdinalScale → JsVal → float;         (* xScale(c), c of the domain *)
  rangeBand : OrdinalScale → float;            (* xScale.rangeBand() *)
  tick_offset : OrdinalScale → JsVal → float;  (* where d3.svg.axis puts the tick of c *)
  enableAxis_not_inherited : ∀ v, inherited v "enableAxis" = Normal VUndefined;
  show_not_inherited : ∀ v, inherited v "show" = Normal VUndefined;
}.

Section lookup.
Context {rt : Runtime}.

(** Property read [v[k]]: reading a property of [undefined] or [null] throws
    a TypeError; a property the object stores is read from it, whatever its
    value; any other is looked up along the prototype chain. *)
Definition get (v : JsVal) (k : string) : completion JsVal :=
  match v with
  | VUndefined | VNull => Throw TypeError
  | VObj m =>
      match m !! k with
      | Some p => Normal p
      | None => inherited (VObj ∅) k
      end
  | VBool _ | VNum _ | VStr _ | VBuiltin _ => inherited v k
  end.

(** ** Settings lookup *)

(** [getOptionValue<T>(objects, objectName, propertyName, defaultValue)].
    The type parameter is erased at run time, so the property and the default
    are arbitrary values. *)
Definition getOptionValue (objects : JsVal) (objectName propertyName : string)
    (defaultValue : JsVal) : completion JsVal :=
  if toBoolean objects then
    object ← get objects objectName;
    if toBoolean object then
      property ← get object propertyName;
      if negb (loose_eq_undefined property) then Normal property
      else Normal defaultValue
    else Normal defaultValue
  else Normal defaultValue.

End lookup.

(** The lookup among the stored properties alone: the value stored under the
    named object and property when the mapping, the object and the property
    exist and the property is neither [undefined] nor [null]; the default in
    every other case.  It is what [getOptionValue] returns for names that no
    built-in object defines. *)
Definition resolved_option (objects : JsVal) (objectName propertyName : string)
    (defaultValue : JsVal) : JsVal :=
  match objects with
  | VObj m =>
      match m !! objectName with
      | Some (VObj o) =>
          match o !! propertyName with
          | Some VUndefined | Some VNull | None => defaultValue
          | Some p => p
          end
      | _ => defaultValue
      end
  | _ => defaultValue
  end.


(** ** The data view supplied by the host *)

(** The nested, partly optional structure of [VisualUpdateOptions].  A field
    the code tests for absence is an [option]; [None] stands for a missing,
    [undefined] or [null] field.  [values] appears three times in the source
    (on a category column, on a value column and on the categorical section),
    hence the prefixes. *)

Record DataViewMetadataColumn := { displayName : string }.

Record DataViewCategoryColumn := {
  source : option DataViewMetadataColumn;
  category_values : list JsVal;          (* category.values *)
}.

Record DataViewValueColumn := {
  column_values : list JsVal;            (* dataValue.values *)
  maxLocal : JsVal;
}.

Record DataViewCategorical := {
  categories : option (list DataViewCategoryColumn);
  values : option (list DataViewValueColumn);
}.

Record DataViewMetadata := { objects : JsVal }.

Record DataView := {
  metadata : DataViewMetadata;
  categorical : option DataViewCategorical;
}.

Record IViewport := { width : float; height : float }.

Record VisualUpdateOptions := {
  dataViews : option (list DataView);
  viewport : IViewport;
}.

(** ** The host services *)

(** A selection identity is an object of the host, opaque to the visual,
    which stores it and hands it back to the selection manager.  Of its
    interface only [getKey()] is kept, the string that names it. *)
Record ISelectionId := { getKey : string }.

(** The services of the host that [visualTransform] calls:
    [host.colorPalette.getColor(key).value], and
    [host.createSelectionIdBuilder().withCategory(category, i).createSelectionId()].
    What they answer is decided by the host. *)
Record IVisualHost := {
  getColor : JsVal → string;
  createSelectionId : DataViewCategoryColumn → nat → ISelectionId;
}.

(** ** The view model *)

Record EnableAxis := { show : JsVal }.
Record BarchartSettings := { enableAxis : EnableAxis }.

Record BarchartDataPoint := {
  value : JsVal;
  category : JsVal;
  color : string;
  selectionID : ISelectionId;
}.

Record BarchartViewModel := {
  dataPoints : list BarchartDataPoint;
  dataMax : JsVal;
  settings : BarchartSettings;
}.

(** ** Reading the optional structure *)

(** [r.f] where [r] may be absent: a TypeError when it is. *)
Definition field {R A} (f : R → A) (r : option R) : completion A :=
  match r with
  | Some x => Normal (f x)
  | None => Throw TypeError
  end.

(** [l[0]] where the array [l] may be absent; an index past the end reads
    as [undefined]. *)
Definition first {A} (l : option (list A)) : completion (option A) :=
  match l with
  | Some xs => Normal (xs !! 0)
  | None => Throw TypeError
  end.

(** [l[i]] on an array of primitive values. *)
Definition element (l : list JsVal) (i : nat) : JsVal := default VUndefined (l !! i).

(** [!x] on a possibly absent structure. *)
Definition js_not {A} (x : option A) : bool :=
  match x with
  | Some _ => false
  | None => true
  end.

(** [a || b] on already negated operands: [b] is evaluated only when [a] is
    false. *)
Definition or_else (a b : completion bool) : completion bool :=
  a ≫= λ x : bool, if x then Normal true else b.
Infix "|||" := or_else (at level 50, left associativity).

(** ** The data transformation *)

Definition defaultSettings : BarchartSettings :=
  {| enableAxis := {| show := VBool false |} |}.

(** The view model returned when there is nothing to draw. *)
Definition dataInfo : BarchartViewModel :=
  {| dataPoints := []; dataMax := VNum 0; settings := defaultSettings |}.

Section paths.
Variable options : VisualUpdateOptions.

(** The access paths the guard and the body of [visualTransform] read. *)
Definition dataView0 := first (dataViews options).              (* dataViews[0] *)
Definition categorical0 := dataView0 ≫= field categorical.      (* dataViews[0].categorical *)
Definition categories0 := categorical0 ≫= field categories.     (* ....categorical.categories *)
Definition category0 := categories0 ≫= first.                   (* ....categories[0] *)
Definition source0 := category0 ≫= field source.                (* ....categories[0].source *)
Definition values0 := categorical0 ≫= field values.             (* ....categorical.values *)
Definition dataValue0 := values0 ≫= first.                      (* ....categorical.values[0] *)

(** The condition of the [if] that returns [dataInfo]. *)
Definition no_data : completion bool :=
  Normal (js_not (dataViews options))
  ||| (js_not <$> dataView0)
  ||| (js_not <$> categorical0)
  ||| (js_not <$> categories0)
  ||| (js_not <$> source0)
  ||| (js_not <$> values0).
End paths.

Section transform.
Context {rt : Runtime}.

(** [visualTransform(options, host)].  [category] and [dataValue] are bound
    before they are known to exist; the first read through them
    ([category.values], [dataValue.values]) throws when they do not.  The loop
    pushes one data point per index below
    [Math.max(category.values.length, dataValue.values.length)]. *)
Definition visualTransform (options : VisualUpdateOptions) (host : IVisualHost)
    : completion BarchartViewModel :=
  no_data options ≫= λ absent : bool,
  if absent then Normal dataInfo
  else
    categorical ← categorical0 options;
    category ← field categories categorical ≫= first;
    dataValue ← field values categorical ≫= first;
    dataView ← dataView0 options;
    objects ← field (objects ∘ metadata) dataView;
    show ← getOptionValue objects "enableAxis" "show" (show (enableAxis defaultSettings));
    let barchartSettings := {| enableAxis := {| show := show |} |} in
    category ← field id category;
    dataValue ← field id dataValue;
    let len := length (category_values category) `max` length (column_values dataValue) in
    let dataPoints :=
      (λ i, {| category := element (category_values category) i;
               value := element (column_values dataValue) i;
               color := getColor host (element (category_values category) i);
               selectionID := createSelectionId host category i |}) <$> seq 0 len in
    let dataMax := maxLocal dataValue in
    Normal {| dataPoints := dataPoints; dataMax := dataMax; settings := barchartSettings |}.

End transform.

(** ** The drawing surface *)

(** The listener installed by [bars.on('click', ...)]: a closure over the
    selection [bars] of the [update] call that created it. *)
Record ClickListener := { listener_bars : list nat }.

(** A [rect] element of the bar container.  [node] is the identity of the
    DOM node; [datum] is the data point bound to it ([__data__]);
    [attributes] holds each attribute as the JavaScript value handed to
    [attr], before the DOM converts it to a string. *)
Record Rect := {
  node : nat;
  attributes : gmap string JsVal;
  datum : BarchartDataPoint;
  onclick : option ClickListener;
}.

(** One [g.tick] drawn by the axis component.  The component also draws the
    line of the domain, which is the same for every scale over one
    interval; only the ticks are kept. *)
Record Tick := { tick_datum : JsVal; tick_at : float }.

(** The [g.xAxis] element. *)
Record AxisGroup := {
  axis_attributes : gmap string JsVal;
  axis_style : gmap string JsVal;
  axis_ticks : list Tick;
}.

(** The fields of the [Visual] class that [update] reads and writes, and the
    counter from which created DOM nodes take their identity.  [host] and
    [selectionManager] never change and stay outside the record. *)
Record Visual := {
  svg : gmap string JsVal;
  barContainer : list Rect;
  xAxis : AxisGroup;
  chartSettings : option BarchartSettings;
  next_node : nat;
}.

(** The state the [constructor] leaves: an [svg.barchart] holding an empty
    [g.barContainer] and an empty [g.xAxis]. *)
Definition Visual_new : Visual :=
  {| svg := {[ "class" := VStr "barchart" ]};
     barContainer := [];
     xAxis := {| axis_attributes := {[ "class" := VStr "xAxis" ]};
                 axis_style := ∅;
                 axis_ticks := [] |};
     chartSettings := None;
     next_node := 0 |}.

(** ** Selections of d3 (version 3) *)

(** [selection.attr(name, value)] and [selection.style(name, value)] on one
    element: a [null] or [undefined] value removes the entry. *)
Definition attr (name : string) (v : JsVal) (a : gmap string JsVal) : gmap string JsVal :=
  if loose_eq_undefined v then delete name a else <[name := v]> a.

Definition rect_attr (name : string) (v : BarchartDataPoint → JsVal) (r : Rect) : Rect :=
  {| node := node r;
     attributes := attr name (v (datum r)) (attributes r);
     datum := datum r;
     onclick := onclick r |}.

Definition set_datum (d : BarchartDataPoint) (r : Rect) : Rect :=
  {| node := node r; attributes := attributes r; datum := d; onclick := onclick r |}.

Definition on_click (l : ClickListener) (r : Rect) : Rect :=
  {| node := node r; attributes := attributes r; datum := datum r; onclick := Some l |}.

Definition is_bar (r : Rect) : bool :=
  match attributes r !! "class" with
  | Some (VStr s) => String.eqb s "bar"
  | _ => false
  end.

(** [container.selectAll('.bar')]: the nodes of class [bar], in document
    order. *)
Definition selectAll_bar (c : list Rect) : list nat :=
  node <$> filter (λ r, is_bar r) c.

(** Applying an operation to every node of a selection. *)
Definition each (sel : list nat) (f : Rect → Rect) (c : list Rect) : list Rect :=
  (λ r, if decide (node r ∈ sel) then f r else r) <$> c.

(** [selection.remove()]. *)
Definition remove (sel : list nat) (c : list Rect) : list Rect :=
  filter (λ r, node r ∉ sel) c.

(** [selection.data(values)] without a key function joins by index: the
    i-th selected node is bound to the i-th value. *)
Fixpoint bind_data (sel : list nat) (values : list BarchartDataPoint) (c : list Rect)
    : list Rect :=
  match sel, values with
  | n :: sel', d :: values' => bind_data sel' values' (each [n] (set_datum d) c)
  | _, _ => c
  end.

(** The three selections of a data join: the nodes that keep a value, the
    values that have no node yet, and the nodes that are left without one. *)
Record Join := {
  update_selection : list nat;
  enter_selection : list BarchartDataPoint;
  exit_selection : list nat;
}.

Definition data (sel : list nat) (values : list BarchartDataPoint) : Join :=
  {| update_selection := take (length values) sel;
     enter_selection := drop (length sel) values;
     exit_selection := drop (length values) sel |}.

(** [enter.append('rect')]: one new element per entering value, carrying
    that value, appended to the container. *)
Definition append_rect (next : nat) (enter : list BarchartDataPoint) : list Rect :=
  imap (λ j d, {| node := next + j; attributes := ∅; datum := d; onclick := None |}) enter.

(** [selection.classed('bar', true)] on a fresh element. *)
Definition classed_bar (r : Rect) : Rect := rect_attr "class" (λ _, VStr "bar") r.

(** [d3.min(array)]: the least element, numbers that do not compare with
    themselves (NaN) being skipped; [None] stands for [undefined]. *)
Fixpoint d3_min_from (a : float) (l : list float) : float :=
  match l with
  | [] => a
  | b :: l' => d3_min_from (if PrimFloat.ltb b a then b else a) l'
  end.

Fixpoint d3_min (l : list float) : option float :=
  match l with
  | [] => None
  | b :: l' => if PrimFloat.leb b b then Some (d3_min_from b l') else d3_min l'
  end.

(** [m * y] where [m] may be [undefined], which converts to NaN. *)
Definition times (m : option float) (y : float) : float :=
  match m with
  | Some x => PrimFloat.mul x y
  | None => PrimFloat.nan
  end.

(** The values of a list whose key was not met before, in order: what a map
    from keys to values, filled in order and never overwritten, retains. *)
Fixpoint unique_by (key : JsVal → string) (seen : list string) (xs : list JsVal)
    : list JsVal :=
  match xs with
  | [] => []
  | x :: xs' =>
      if decide (key x ∈ seen) then unique_by key seen xs'
      else x :: unique_by key (key x :: seen) xs'
  end.

(** ** The renderer *)

Section visual.
Context {rt : Runtime} (host : IVisualHost).

(** ToString, the conversion d3 applies to a value it uses as a key and
    [+] applies to a number joined to a string. *)
Definition to_string (v : JsVal) : string :=
  match v with
  | VUndefined => "undefined"
  | VNull => "null"
  | VBool true => "true"
  | VBool false => "false"
  | VNum x => number_to_string x
  | VStr s => s
  | VObj _ => "[object Object]"
  | VBuiltin b => builtin_to_string b
  end.

(** [scale.domain(values)] of an ordinal scale keeps the first occurrence
    of every key. *)
Definition unique_from (seen : list string) (xs : list JsVal) : list JsVal :=
  unique_by to_string seen xs.

(** The height left to the bars: [height = height - 25] when the axis is
    enabled. *)
Definition plot_height (chartSettings : BarchartSettings) (height : float) : float :=
  if toBoolean (show (enableAxis chartSettings)) then (height - 25)%float else height.

(** [d3.scale.linear().domain([0, dataMax]).range([height, 0])] *)
Definition yScale (transformedData : BarchartViewModel) (viewport : IViewport) : LinearScale :=
  {| linear_domain := (VNum 0, dataMax transformedData);
     linear_range := (plot_height (settings transformedData) (height viewport), 0%float) |}.

(** [d3.scale.ordinal().domain(categories).rangeRoundBands([0, width], 0.1, 0.2)] *)
Definition xScale (transformedData : BarchartViewModel) (viewport : IViewport) : OrdinalScale :=
  {| ordinal_domain := unique_from [] (category <$> dataPoints transformedData);
     band_interval := (0%float, width viewport);
     padding := 0.1%float;
     outerPadding := 0.2%float |}.

(** The key of a tick in the data join of the axis component,
    [selectAll('.tick').data(domain, scale)]: the position the scale gives
    its value, as a string. *)
Definition tick_key (x : OrdinalScale) (c : JsVal) : string := number_to_string (band x c).

(** [group.call(d3.svg.axis().scale(x).orient('bottom'))]: the ticks of the
    group become those of the elements of the scale's domain, joined by key.
    Whatever ticks the group held, the join leaves one tick per key, bound to
    the first element of the domain with that key: elements that the scale
    maps to one position share a tick. *)
Definition axis_call (x : OrdinalScale) : list Tick :=
  (λ c, {| tick_datum := c; tick_at := tick_offset x c |})
  <$> unique_by (tick_key x) [] (ordinal_domain x).

(** ['translate(0, ' + height + ')'] *)
Definition translate (height : float) : JsVal :=
  VStr ("translate(0, " +:+ number_to_string height +:+ ")").

(** The attribute map given to [bars.attr]. *)
Definition bar_attributes (y : LinearScale) (x : OrdinalScale) (height : float) (r : Rect) : Rect :=
  rect_attr "fill" (λ data, VStr (color data))
    (rect_attr "y" (λ data, VNum (linear y (value data)))
      (rect_attr "x" (λ data, VNum (band x (category data)))
        (rect_attr "height" (λ data, VNum (height - linear y (value data))%float)
          (rect_attr "width" (λ _, VNum (rangeBand x)) r)))).

(** The statements of [update] that follow the call of [visualTransform]. *)
Definition render (this : Visual) (transformedData : BarchartViewModel)
    (viewport : IViewport) : Visual :=
  let chartSettings := settings transformedData in
  let width := width viewport in
  let height := height viewport in
  let svg := attr "height" (VNum height) (attr "width" (VNum width) (svg this)) in
  let height := plot_height chartSettings height in
  let style := attr "font-size" (VNum (times (d3_min [height; width]) 0.04))
                 (axis_style (xAxis this)) in
  let yScale := yScale transformedData viewport in
  let xScale := xScale transformedData viewport in
  let xAxis :=
    {| axis_attributes := attr "transform" (translate height) (axis_attributes (xAxis this));
       axis_style := style;
       axis_ticks := axis_call xScale |} in
  let selected := selectAll_bar (barContainer this) in
  let join := data selected (dataPoints transformedData) in
  let container := bind_data selected (dataPoints transformedData) (barContainer this) in
  let entered := classed_bar <$> append_rect (next_node this) (enter_selection join) in
  let container := container ++ entered in
  let bars := update_selection join ++ (node <$> entered) in
  let container := each bars (bar_attributes yScale xScale height) container in
  let container := each bars (on_click {| listener_bars := bars |}) container in
  let container := remove (exit_selection join) container in
  {| svg := svg;
     barContainer := container;
     xAxis := xAxis;
     chartSettings := Some chartSettings;
     next_node := next_node this + length entered |}.

(** [update(options)].  An exception of [visualTransform] leaves before any
    field or element is written. *)
Definition update (this : Visual) (options : VisualUpdateOptions) : completion Visual :=
  transformedData ← visualTransform options host;
  Normal (render this transformedData (viewport options)).

(** One entry of the property pane. *)
Record VisualObjectInstance := {
  instance_objectName : string;
  instance_properties : gmap string JsVal;
}.

(** [enumerateObjectInstances(options)]: the persisted setting of the group
    [enableAxis], nothing for another name.  Reading
    [this.chartSettings.enableAxis] before the first [update] throws. *)
Definition enumerateObjectInstances (this : Visual) (objectName : string)
    : completion (list VisualObjectInstance) :=
  if String.eqb objectName "enableAxis" then
    chartSettings ← field id (chartSettings this);
    Normal [{| instance_objectName := objectName;
               instance_properties := {[ "show" := show (enableAxis chartSettings) ]} |}]
  else Normal [].

(** ** Clicks and the selection manager *)

(** The function passed to [then]: it closes over [bars] and over the
    clicked element ([this] of the listener). *)
Record Continuation := { then_bars : list nat; then_this : nat }.

(** The visual together with what the host holds for it: the identities
    [selectionManager.select] was called with, and the continuations that
    wait for their result. *)
Record World := {
  visual : Visual;
  select_calls : list ISelectionId;
  pending : list Continuation;
}.

Definition World_new : World :=
  {| visual := Visual_new; select_calls := []; pending := [] |}.

Definition with_visual (w : World) (v : Visual) : World :=
  {| visual := v; select_calls := select_calls w; pending := pending w |}.

Definition with_container (v : Visual) (c : list Rect) : Visual :=
  {| svg := svg v; barContainer := c; xAxis := xAxis v;
     chartSettings := chartSettings v; next_node := next_node v |}.

(** A click on the element [n]: its listener, if it has one, calls
    [selectionManager.select(dataPoint.selectionID)] and registers the
    continuation. *)
Definition click (w : World) (n : nat) : World :=
  match head (filter (λ r, node r = n) (barContainer (visual w))) with
  | Some r =>
      match onclick r with
      | Some l =>
          {| visual := visual w;
             select_calls := select_calls w ++ [selectionID (datum r)];
             pending := pending w ++ [{| then_bars := listener_bars l; then_this := n |}] |}
      | None => w
      end
  | None => w
  end.

(** ['fill-opacity': ids.length > 0 ? .5 : 1] *)
Definition dimmed (ids : list ISelectionId) : JsVal :=
  VNum (if decide (0 < length ids) then 0.5%float else 1%float).

(** The two statements of the continuation. *)
Definition dim_all (k : Continuation) (ids : list ISelectionId) (c : list Rect) : list Rect :=
  each (then_bars k) (rect_attr "fill-opacity" (λ _, dimmed ids)) c.

Definition highlight_clicked (k : Continuation) (c : list Rect) : list Rect :=
  each [then_this k] (rect_attr "fill-opacity" (λ _, VNum 1)) c.

Definition on_selected (k : Continuation) (ids : list ISelectionId) (c : list Rect) : list Rect :=
  highlight_clicked k (dim_all k ids c).

(** The result of the i-th pending request arrives. *)
Definition resolve (w : World) (i : nat) (ids : list ISelectionId) : World :=
  match pending w !! i with
  | Some k =>
      {| visual := with_container (visual w) (on_selected k ids (barContainer (visual w)));
         select_calls := select_calls w;
         pending := delete i (pending w) |}
  | None => w
  end.

(** What can happen to the visual. *)
Inductive Event :=
| Update (options : VisualUpdateOptions)
| Click (n : nat)
| Resolve (i : nat) (ids : list ISelectionId).

Definition step (w : World) (e : Event) : World :=
  match e with
  | Update options =>
      match update (visual w) options with
      | Normal v => with_visual w v
      | Throw _ => w
      end
  | Click n => click w n
  | Resolve i ids => resolve w i ids
  end.

Inductive reachable : World → Prop :=
| reachable_new : reachable World_new
| reachable_step w e : reachable w → reachable (step w e).

(** The invariant of the bar container: the nodes are distinct and older
    than the counter, all of them are bars, and every listener holds
    exactly the bars of the container. *)
Record container_ok (v : Visual) : Prop := {
  nodes_distinct : NoDup (node <$> barContainer v);
  nodes_known : ∀ r, r ∈ barContainer v → node r < next_node v;
  nodes_bars : ∀ r, r ∈ barContainer v → is_bar r = true;
  listeners_current : ∀ r, r ∈ barContainer v →
    onclick r = Some {| listener_bars := node <$> barContainer v |};
}.

End visual.

(** ** The outcome of the data join, in closed form *)

(** Binding values to the elements of a list position by position. *)
Fixpoint rebind (c : list Rect) (values : list BarchartDataPoint) : list Rect :=
  match c, values with
  | r :: c', d :: values' => set_datum d r :: rebind c' values'
  | _, _ => c
  end.

Section joined.
Context {rt : Runtime}.

(** The bars a join leaves in the container: the retained elements, bound to
    their new values, followed by the created ones. *)
Definition joined (this : Visual) (values : list BarchartDataPoint) : list Rect :=
  rebind (take (length values) (barContainer this)) values
  ++ (classed_bar <$> append_rect (next_node this) (drop (length (barContainer this)) values)).

(** What [update] then does to each of them. *)
Definition paint (this : Visual) (transformedData : BarchartViewModel) (viewport : IViewport)
    (r : Rect) : Rect :=
  on_click {| listener_bars := node <$> joined this (dataPoints transformedData) |}
    (bar_attributes (yScale transformedData viewport) (xScale transformedData viewport)
       (plot_height (settings transformedData) (height viewport)) r).

End joined.

(** ** The earlier stage of the visual: data without settings *)

(** The visual as it stood before colours, selection and settings were
    added: a data point is a category and a value, and the view model has
    no settings.  The guard and the loop are those of the final stage. *)
Module DataOnly.

Record BarchartDataPoint := {
  value : JsVal;
  category : JsVal;
}.

Record BarchartViewModel := {
  dataPoints : list BarchartDataPoint;
  dataMax : JsVal;
}.

Definition dataInfo : BarchartViewModel := {| dataPoints := []; dataMax := VNum 0 |}.

Definition visualTransform (options : VisualUpdateOptions) (host : IVisualHost)
    : completion BarchartViewModel :=
  no_data options ≫= λ absent : bool,
  if absent then Normal dataInfo
  else
    categorical ← categorical0 options;
    category ← field categories categorical ≫= first;
    dataValue ← field values categorical ≫= first;
    category ← field id category;
    dataValue ← field id dataValue;
    let len := length (category_values category) `max` length (column_values dataValue) in
    let dataPoints :=
      (λ i, {| category := element (category_values category) i;
               value := element (column_values dataValue) i |}) <$> seq 0 len in
    let dataMax := maxLocal dataValue in
    Normal {| dataPoints := dataPoints; dataMax := dataMax |}.

End DataOnly.

(** What the final view model keeps of the earlier one. *)
Definition without_settings (vm : BarchartViewModel) : DataOnly.BarchartViewModel :=
  {| DataOnly.dataPoints :=
       (λ d, {| DataOnly.value := value d; DataOnly.category := category d |})
       <$> dataPoints vm;
     DataOnly.dataMax := dataMax vm |}.

(** ** Histories of the visual *)

Section histories.
Context {rt : Runtime} (host : IVisualHost).

(** The world after a sequence of events, starting from the constructor. *)
Definition run (events : list Event) : World := foldl (step host) World_new events.

(** An event that is an update whose transformation returns. *)
Definition succeeds (e : Event) : bool :=
  match e with
  | Update options =>
      match visualTransform options host with
      | Normal _ => true
      | Throw _ => false
      end
  | Click _ | Resolve _ _ => false
  end.

(** The settings of the last update of a history that succeeded. *)
Fixpoint last_settings (events : list Event) (current : option BarchartSettings)
    : option BarchartSettings :=
  match events with
  | [] => current
  | Update options :: events' =>
      match visualTransform options host with
      | Normal vm => last_settings events' (Some (settings vm))
      | Throw _ => last_settings events' current
      end
  | _ :: events' => last_settings events' current
  end.

End histories.

(** ** Sample host, runtime and data *)

(** A host for the examples: a palette with a fixed colour per known key,
    and identities named after the column and the row. *)
Definition sample_host : IVisualHost :=
  {| getColor := λ key,
       match key with
       | VStr "China" => "#01B8AA"
       | VStr "USA" => "#374649"
       | VStr "India" => "#FD625E"
       | VStr "Germany" => "#F2C80F"
       | _ => "#5F6B6D"
       end;
     createSelectionId := λ category i,
       {| getKey := match source category with
                    | Some column => displayName column
                    | None => ""
                    end +:+ "/" +:+ pretty i |} |}.

(** *** Numbers and strings *)

(** The order of [a * 2^p * 10^q] and [b * 2^r * 10^s]. *)
Definition compare_scaled (a p q b r s : Z) : comparison :=
  let p0 := Z.min p r in
  let q0 := Z.min q s in
  (a * 2 ^ (p - p0) * 10 ^ (q - q0) ?= b * 2 ^ (r - p0) * 10 ^ (s - q0))%Z.

(** The integer part of [m * 2^e / 10^t]. *)
Definition quotient10 (m e t : Z) : Z :=
  ((m * 2 ^ Z.max e 0 * 10 ^ Z.max (- t) 0) / (2 ^ Z.max (- e) 0 * 10 ^ Z.max t 0))%Z.

(** The least [n] with [m * 2^e < 10^n]. *)
Definition decimal_exponent (m e : Z) : Z :=
  let est := ((Z.log2 m + e) * 30103 / 100000)%Z in
  default (est + 3)%Z
    (head (filter (λ n, bool_decide (compare_scaled m e 0 1 0 n = Lt))
             [est - 1; est; est + 1; est + 2; est + 3]%Z)).

(** The decimal numbers [s * 10^t] of [k] digits next to [v = m * 2^e]
    that convert back to [v], the nearer first.  A number converts to [v]
    when it lies between the midpoints of [v] and its two neighbours, the
    midpoints included when [m] is even. *)
Definition digits_of_length (m e n0 k : Z) : option (Z * Z) :=
  let below := (if bool_decide (m = 2 ^ 52 ∧ -1074 < e) then 4 * m - 1 else 4 * m - 2)%Z in
  let above := (4 * m + 2)%Z in
  let converts s t :=
    match compare_scaled s 0 t below (e - 2) 0, compare_scaled s 0 t above (e - 2) 0 with
    | Gt, Lt => true
    | Eq, Lt | Gt, Eq => Z.even m
    | _, _ => false
    end in
  let t := (n0 - k)%Z in
  let s := quotient10 m e t in
  let lower := (s, t) in
  let upper :=
    if bool_decide (s + 1 < 10 ^ k)%Z then (s + 1, t)%Z else (10 ^ (k - 1), t + 1)%Z in
  match converts lower.1 lower.2, converts upper.1 upper.2 with
  | true, true =>
      match compare_scaled (2 * m) e 0 (2 * s + 1) 0 t with
      | Lt => Some lower
      | Gt => Some upper
      | Eq => if Z.even s then Some lower else Some upper
      end
  | true, false => Some lower
  | false, true => Some upper
  | false, false => None
  end.

(** The digits [s] and the exponent [n] of the shortest decimal number
    [s * 10^(n - k)], [k] the number of digits of [s], that converts back to
    [m * 2^e]; seventeen digits always suffice. *)
Definition shortest_digits (m e : Z) : Z * Z :=
  let n0 := decimal_exponent m e in
  let found :=
    (λ k, (λ st : Z * Z, (st.1, st.2 + k)%Z) <$> digits_of_length m e n0 k)
    <$> [1; 2; 3; 4; 5; 6; 7; 8; 9; 10; 11; 12; 13; 14; 15; 16; 17]%Z in
  default (quotient10 m e (n0 - 17), n0) (head (omap id found)).

Definition zeros (n : Z) : string := String.concat "" (replicate (Z.to_nat n) "0").

(** The layout of the digits [s], with the decimal point after the [n]-th. *)
Definition decimal_form (s n : Z) : string :=
  let digits := pretty s in
  let k := Z.of_nat (String.length digits) in
  if bool_decide (k ≤ n ≤ 21)%Z then digits +:+ zeros (n - k)
  else if bool_decide (0 < n ≤ 21)%Z then
    String.substring 0 (Z.to_nat n) digits +:+ "."
    +:+ String.substring (Z.to_nat n) (Z.to_nat (k - n)) digits
  else if bool_decide (-6 < n ≤ 0)%Z then "0." +:+ zeros (- n) +:+ digits
  else
    let exponent :=
      (if bool_decide (0 ≤ n - 1)%Z then "e+" else "e-") +:+ pretty (Z.abs (n - 1)) in
    if bool_decide (k = 1)%Z then digits +:+ exponent
    else String.substring 0 1 digits +:+ "."
         +:+ String.substring 1 (Z.to_nat (k - 1)) digits +:+ exponent.

(** ToString of a number: the shortest decimal form that reads back as the
    number. *)
Definition sample_number_to_string (x : float) : string :=
  match Prim2SF x with
  | S754_zero _ => "0"
  | S754_infinity false => "Infinity"
  | S754_infinity true => "-Infinity"
  | S754_nan => "NaN"
  | S754_finite sign m e =>
      let '(s, n) := shortest_digits (Z.pos m) e in
      (if sign then "-" else "") +:+ decimal_form s n
  end.

(** The binary64 value nearest to [± n * 10^d]. *)
Definition float_of_decimal (negative : bool) (n d : Z) : float :=
  match n with
  | Z.pos p =>
      if bool_decide (310 < d)%Z then SF2Prim (S754_infinity negative)
      else if bool_decide (d + Z.log2 n < -400)%Z then SF2Prim (S754_zero negative)
      else
        match (10 ^ Z.max (- d) 0)%Z, (n * 10 ^ Z.max d 0)%Z with
        | Z.pos q, Z.pos p' =>
            SF2Prim (SFdiv prec emax (S754_finite negative p' 0) (S754_finite false q 0))
        | _, _ => PrimFloat.nan
        end
  | _ => SF2Prim (S754_zero negative)
  end.

(** The bytes of a string. *)
Definition codes (s : string) : list nat :=
  Ascii.nat_of_ascii <$> String.list_ascii_of_string s.

Definition of_codes (l : list nat) : string :=
  String.string_of_list_ascii (Ascii.ascii_of_nat <$> l).

(** The white space and line terminators of JavaScript, in UTF-8. *)
Definition white_space : list (list nat) :=
  [[9]; [10]; [11]; [12]; [13]; [32]; [194; 160]; [225; 154; 128]; [226; 128; 168];
   [226; 128; 169]; [226; 128; 175]; [226; 129; 159]; [227; 128; 128]; [239; 187; 191]]
  ++ ((λ n, [226; 128; n]) <$> seq 128 11).

Fixpoint strip_prefix (p l : list nat) : option (list nat) :=
  match p, l with
  | [], _ => Some l
  | a :: p', b :: l' => if bool_decide (a = b) then strip_prefix p' l' else None
  | _ :: _, [] => None
  end.

(** What follows the first of the given prefixes that the list starts with. *)
Definition strip_any (prefixes : list (list nat)) (l : list nat) : option (list nat) :=
  head (omap (λ p, strip_prefix p l) prefixes).

Definition strip_text (prefixes : list string) (l : list nat) : option (list nat) :=
  strip_any (codes <$> prefixes) l.

Fixpoint strip_space (spaces : list (list nat)) (fuel : nat) (l : list nat) : list nat :=
  match fuel with
  | 0 => l
  | S fuel' =>
      match strip_any spaces l with
      | Some l' => strip_space spaces fuel' l'
      | None => l
      end
  end.

Definition trim (l : list nat) : list nat :=
  let l := strip_space white_space (length l) l in
  reverse (strip_space (reverse <$> white_space) (length l) (reverse l)).

Definition digit_value (n : nat) : option Z :=
  if bool_decide (48 ≤ n ≤ 57) then Some (Z.of_nat (n - 48))
  else if bool_decide (97 ≤ n ≤ 102) then Some (Z.of_nat (n - 87))
  else if bool_decide (65 ≤ n ≤ 70) then Some (Z.of_nat (n - 55))
  else None.

(** The value of a non-empty list of digits in a base; [None] for any other
    list. *)
Definition digits_value (base : Z) (l : list nat) : option Z :=
  match l with
  | [] => None
  | _ =>
      foldl (λ acc a,
               n ← acc; d ← digit_value a;
               if bool_decide (d < base)%Z then Some (n * base + d)%Z else None)
            (Some 0%Z) l
  end.

(** The decimal digits a list starts with, and the rest. *)
Fixpoint leading_digits (l : list nat) : list nat * list nat :=
  match l with
  | a :: l' =>
      if bool_decide (48 ≤ a ≤ 57) then
        let '(ds, rest) := leading_digits l' in (a :: ds, rest)
      else ([], l)
  | [] => ([], [])
  end.

(** An exponent part: [e] or [E], an optional sign, digits. *)
Definition exponent_part (l : list nat) : option Z :=
  match l with
  | [] => Some 0%Z
  | _ =>
      l' ← strip_text ["e"; "E"] l;
      match strip_text ["-"] l', strip_text ["+"] l' with
      | Some ds, _ => Z.opp <$> digits_value 10 ds
      | None, Some ds => digits_value 10 ds
      | None, None => digits_value 10 l'
      end
  end.

(** An unsigned decimal literal: digits with an optional fraction and an
    optional exponent, one digit at least before the exponent. *)
Definition unsigned_decimal (negative : bool) (l : list nat) : float :=
  if bool_decide (l = codes "Infinity") then SF2Prim (S754_infinity negative)
  else
    let '(whole, rest) := leading_digits l in
    let '(fraction, rest) :=
      match strip_text ["."] rest with
      | Some rest' => leading_digits rest'
      | None => ([], rest)
      end in
    match whole ++ fraction, exponent_part rest with
    | _ :: _, Some exponent =>
        match digits_value 10 (whole ++ fraction) with
        | Some n => float_of_decimal negative n (exponent - Z.of_nat (length fraction))
        | None => PrimFloat.nan
        end
    | _, _ => PrimFloat.nan
    end.

(** ToNumber of a string: white space around a decimal literal with an
    optional sign, or around an unsigned literal in base 16, 8 or 2; the
    empty string is zero. *)
Definition string_to_number (s : string) : float :=
  let integer base ds :=
    match digits_value base ds with
    | Some n => float_of_decimal false n 0
    | None => PrimFloat.nan
    end in
  let l := trim (codes s) in
  match l with
  | [] => 0%float
  | _ =>
      match strip_text ["0x"; "0X"] l, strip_text ["0o"; "0O"] l, strip_text ["0b"; "0B"] l with
      | Some ds, _, _ => integer 16%Z ds
      | _, Some ds, _ => integer 8%Z ds
      | _, _, Some ds => integer 2%Z ds
      | None, None, None =>
          match strip_text ["-"] l, strip_text ["+"] l with
          | Some l', _ => unsigned_decimal true l'
          | None, Some l' => unsigned_decimal false l'
          | None, None => unsigned_decimal false l
          end
      end
  end.

(** ToNumber.  An object converts through its primitive value: a plain
    object and a built-in function through their string form, which is no
    number, the prototypes of [String], [Number] and [Boolean] through the
    empty string, zero and [false] they wrap. *)
Definition sample_to_number (v : JsVal) : float :=
  match v with
  | VNum x => x
  | VNull | VBool false => 0%float
  | VBool true => 1%float
  | VStr s => string_to_number s
  | VBuiltin b =>
      if bool_decide (b ∈ ["String.prototype"; "Number.prototype"; "Boolean.prototype"])
      then 0%float else PrimFloat.nan
  | VUndefined | VObj _ => PrimFloat.nan
  end.

Definition float_of_Z (z : Z) : float := PrimFloat.of_uint63 (Uint63.of_Z z).

Definition float_of_nat (n : nat) : float := float_of_Z (Z.of_nat n).

(** [Math.floor]. *)
Definition sample_floor (x : float) : float :=
  match Prim2SF x with
  | S754_finite sign m e =>
      let q := (Z.pos m / 2 ^ (- e))%Z in
      if bool_decide (0 ≤ e ∨ Z.pos m mod 2 ^ (- e) = 0)%Z then x
      else if sign then PrimFloat.opp (float_of_Z (q + 1))
      else float_of_Z q
  | _ => x
  end.

(** [Math.round]: the nearest integer, the greater one of two that are
    equally near. *)
Definition sample_round (x : float) : float :=
  match Prim2SF x with
  | S754_finite sign m e =>
      let q := (Z.pos m / 2 ^ (- e))%Z in
      let r := (Z.pos m mod 2 ^ (- e))%Z in
      let half := (2 ^ (- e - 1))%Z in
      if bool_decide (0 ≤ e ∨ r = 0)%Z then x
      else if sign then
        PrimFloat.opp (float_of_Z (if bool_decide (r ≤ half)%Z then q else q + 1))
      else float_of_Z (if bool_decide (r < half)%Z then q else q + 1)
  | _ => x
  end.

(** *** The scales *)

(** A linear scale as d3 computes it for a two-point domain and range. *)
Definition sample_linear (s : LinearScale) (v : JsVal) : float :=
  let a := sample_to_number (linear_domain s).1 in
  let b := (sample_to_number (linear_domain s).2 - a)%float in
  let b := if (PrimFloat.eqb b 0 || is_nan b) then (1 / b)%float else b in
  let t := ((sample_to_number v - a) / b)%float in
  ((linear_range s).1 * (1 - t) + (linear_range s).2 * t)%float.

(** [rangeRoundBands(interval, padding, outerPadding)]: an interval given
    from its greater end is laid out from the lesser one and the bands are
    then taken in reverse. *)
Definition sample_reverse (s : OrdinalScale) : bool :=
  PrimFloat.ltb (band_interval s).2 (band_interval s).1.

Definition sample_low (s : OrdinalScale) : float :=
  if sample_reverse s then (band_interval s).2 else (band_interval s).1.

Definition sample_high (s : OrdinalScale) : float :=
  if sample_reverse s then (band_interval s).1 else (band_interval s).2.

Definition sample_step (s : OrdinalScale) : float :=
  sample_floor ((sample_high s - sample_low s)
                / (float_of_nat (length (ordinal_domain s)) - padding s + 2 * outerPadding s))%float.

Definition sample_start (s : OrdinalScale) : float :=
  (sample_low s
   + sample_round ((sample_high s - sample_low s
                    - (float_of_nat (length (ordinal_domain s)) - padding s) * sample_step s) / 2))%float.

Definition sample_rangeBand (s : OrdinalScale) : float :=
  sample_round (sample_step s * (1 - padding s))%float.

Fixpoint sample_index (key : JsVal → string) (k : string) (l : list JsVal) (i : nat)
    : option nat :=
  match l with
  | [] => None
  | c :: l' => if String.eqb (key c) k then Some i else sample_index key k l' (S i)
  end.

(** *** The built-in objects *)

(** The built-in objects of the examples are those of ECMAScript 5.1 that
    a value of the visual can reach: the constructors [Object], [Function],
    [String], [Number] and [Boolean], written by their name, their
    prototypes ([Object.prototype]), and the functions these hold
    ([Object.prototype.toString], [Object.keys]). *)

(** The functions the constructors and their prototypes hold, with the
    accessors of annex B: the holder, the name of the member, and the number
    of parameters the function declares. *)
Definition held_by (holder : string) (l : list (string * nat))
    : list (string * string * nat) :=
  (λ entry, (holder, entry.1, entry.2)) <$> l.

Definition members : list (string * string * nat) :=
  held_by "Object.prototype"
    [("toString", 0); ("toLocaleString", 0); ("valueOf", 0); ("hasOwnProperty", 1);
     ("isPrototypeOf", 1); ("propertyIsEnumerable", 1); ("__defineGetter__", 2);
     ("__defineSetter__", 2); ("__lookupGetter__", 1); ("__lookupSetter__", 1)]
  ++ held_by "Function.prototype"
    [("apply", 2); ("bind", 1); ("call", 1); ("toString", 0)]
  ++ held_by "String.prototype"
    [("toString", 0); ("valueOf", 0); ("charAt", 1); ("charCodeAt", 1); ("concat", 1);
     ("indexOf", 1); ("lastIndexOf", 1); ("localeCompare", 1); ("match", 1); ("replace", 2);
     ("search", 1); ("slice", 2); ("split", 2); ("substring", 2); ("substr", 2);
     ("toLowerCase", 0); ("toLocaleLowerCase", 0); ("toUpperCase", 0);
     ("toLocaleUpperCase", 0); ("trim", 0)]
  ++ held_by "Number.prototype"
    [("toString", 1); ("toLocaleString", 0); ("valueOf", 0); ("toFixed", 1);
     ("toExponential", 1); ("toPrecision", 1)]
  ++ held_by "Boolean.prototype"
    [("toString", 0); ("valueOf", 0)]
  ++ held_by "Object"
    [("getPrototypeOf", 1); ("getOwnPropertyDescriptor", 2); ("getOwnPropertyNames", 1);
     ("create", 2); ("defineProperty", 3); ("defineProperties", 2); ("seal", 1);
     ("freeze", 1); ("preventExtensions", 1); ("isSealed", 1); ("isFrozen", 1);
     ("isExtensible", 1); ("keys", 1)]
  ++ held_by "String"
    [("fromCharCode", 1)].

(** The number of parameters of the function that a holder holds under the
    name [k], if it holds one. *)
Definition arity (holder k : string) : option nat :=
  snd <$> head (filter (λ entry, String.eqb entry.1.1 holder = true)
                  (filter (λ entry, String.eqb entry.1.2 k = true) members)).

(** The values that [Number] holds. *)
Definition number_constants : list (string * float) :=
  [("MAX_VALUE", 0x1.fffffffffffffp+1023%float); ("MIN_VALUE", 0x1p-1074%float);
   ("NaN", PrimFloat.nan); ("NEGATIVE_INFINITY", PrimFloat.neg_infinity);
   ("POSITIVE_INFINITY", PrimFloat.infinity)].

(** The member [k] that the instances of a class find on its prototype or,
    failing that, on [Object.prototype]. *)
Definition prototype_member (class k : string) : JsVal :=
  if String.eqb k "constructor" then VBuiltin class
  else if String.eqb k "__proto__" then VBuiltin (class +:+ ".prototype")
  else
    match arity (class +:+ ".prototype") k, arity "Object.prototype" k with
    | Some _, _ => VBuiltin (class +:+ ".prototype." +:+ k)
    | None, Some _ => VBuiltin ("Object.prototype." +:+ k)
    | None, None => VUndefined
    end.

(** A list split at the last occurrence of a separator, if it has one. *)
Fixpoint split_last (separator : nat) (l : list nat) : option (list nat) * list nat :=
  match l with
  | [] => (None, [])
  | a :: l' =>
      match split_last separator l' with
      | (Some before, after) => (Some (a :: before), after)
      | (None, after) =>
          if bool_decide (a = separator) then (Some [], after) else (None, a :: after)
      end
  end.

(** The text after the last dot of a name, and the text before it. *)
Definition last_component (s : string) : string := of_codes (split_last 46 (codes s)).2.

Definition before_last_dot (s : string) : string :=
  default "" (of_codes <$> (split_last 46 (codes s)).1).

Definition is_constructor (b : string) : bool :=
  bool_decide (b ∈ ["Object"; "Function"; "String"; "Number"; "Boolean"]).

Definition is_prototype (b : string) : bool := String.eqb (last_component b) "prototype".

(** All the built-in objects but the prototypes of [Object], [String],
    [Number] and [Boolean] are functions. *)
Definition is_function (b : string) : bool :=
  negb (is_prototype b) || String.eqb b "Function.prototype".

(** The number of parameters a built-in function declares. *)
Definition builtin_length (b : string) : nat :=
  if is_constructor b then 1
  else default 0 (arity (before_last_dot b) (last_component b)).

(** The member [k] of a built-in object.  A function has a [name], a
    [length] and, if it is a constructor, a [prototype]; reading its
    [caller] or [arguments] runs a getter that throws.  Then come the
    functions and values the object holds itself, and then what it inherits:
    a function from [Function.prototype], a prototype from
    [Object.prototype]. *)
Definition builtin_member (b k : string) : completion JsVal :=
  if String.eqb k "name" then
    Normal (if is_function b
            then VStr (if is_prototype b then "" else last_component b)
            else VUndefined)
  else if String.eqb k "length" then
    Normal (if is_function b then VNum (float_of_nat (builtin_length b))
            else if String.eqb b "String.prototype" then VNum 0
            else VUndefined)
  else if String.eqb k "prototype" then
    Normal (if is_constructor b then VBuiltin (b +:+ ".prototype") else VUndefined)
  else if String.eqb k "caller" || String.eqb k "arguments" then
    if is_function b then Throw TypeError else Normal VUndefined
  else if String.eqb k "__proto__" then
    Normal (if String.eqb b "Object.prototype" then VNull
            else if is_function b && negb (is_prototype b) then VBuiltin "Function.prototype"
            else VBuiltin "Object.prototype")
  else
    match arity b k,
          head (filter (λ entry, String.eqb entry.1 k = true) number_constants) with
    | Some _, _ => Normal (VBuiltin (b +:+ "." +:+ k))
    | None, Some (_, x) => Normal (if String.eqb b "Number" then VNum x else VUndefined)
    | None, None =>
        Normal (prototype_member (if is_prototype b then before_last_dot b else "Function") k)
    end.

(** The UTF-16 code units of a string held in UTF-8, each written as the
    UTF-8 form of the code unit alone. *)
Definition code_unit (u : Z) : string :=
  of_codes (Z.to_nat <$> [224 + u / 4096; 128 + u / 64 mod 64; 128 + u mod 64]%Z).

Fixpoint code_units (fuel : nat) (l : list nat) : list string :=
  match fuel with
  | 0 => []
  | S fuel' =>
      match l with
      | [] => []
      | n :: l' =>
          if bool_decide (240 ≤ n) then
            match Z.of_nat <$> l' with
            | b :: c :: d :: _ =>
                let point := ((Z.of_nat n mod 8) * 262144 + (b mod 64) * 4096 + (c mod 64) * 64
                              + d mod 64 - 65536)%Z in
                code_unit (55296 + point / 1024) :: code_unit (56320 + point mod 1024)
                :: code_units fuel' (drop 3 l')
            | _ => [of_codes l]
            end
          else if bool_decide (224 ≤ n) then of_codes (take 3 l) :: code_units fuel' (drop 2 l')
          else if bool_decide (192 ≤ n) then of_codes (take 2 l) :: code_units fuel' (drop 1 l')
          else of_codes [n] :: code_units fuel' l'
      end
  end.

Definition utf16 (s : string) : list string := code_units (String.length s) (codes s).

(** An array index written in canonical form. *)
Definition array_index (k : string) : option nat :=
  let l := codes k in
  match l with
  | 48 :: _ :: _ => None
  | _ => if bool_decide (l = (leading_digits l).1) then Z.to_nat <$> digits_value 10 l else None
  end.

(** The property [k] of a value that does not store it. *)
Definition sample_inherited (v : JsVal) (k : string) : completion JsVal :=
  match v with
  | VUndefined | VNull => Normal VUndefined
  | VObj _ => Normal (prototype_member "Object" k)
  | VBool _ => Normal (prototype_member "Boolean" k)
  | VNum _ => Normal (prototype_member "Number" k)
  | VStr s =>
      if String.eqb k "length" then Normal (VNum (float_of_nat (length (utf16 s))))
      else
        match array_index k with
        | Some i => Normal (default (prototype_member "String" k) (VStr <$> utf16 s !! i))
        | None => Normal (prototype_member "String" k)
        end
  | VBuiltin b => builtin_member b k
  end.

(** ToString of a built-in object: the text of a function, and for a
    prototype the string form of the value it wraps. *)
Definition sample_builtin_to_string (b : string) : string :=
  if String.eqb b "Function.prototype" then "function () { [native code] }"
  else if is_function b then "function " +:+ last_component b +:+ "() { [native code] }"
  else if String.eqb b "Object.prototype" then "[object Object]"
  else if String.eqb b "Number.prototype" then "0"
  else if String.eqb b "Boolean.prototype" then "false"
  else "".

Definition sample_to_string (v : JsVal) : string :=
  match v with
  | VUndefined => "undefined"
  | VNull => "null"
  | VBool true => "true"
  | VBool false => "false"
  | VNum x => sample_number_to_string x
  | VStr s => s
  | VObj _ => "[object Object]"
  | VBuiltin b => sample_builtin_to_string b
  end.

(** A banded scale as d3 computes it after [rangeRoundBands], on the
    elements of its domain. *)
Definition sample_band (s : OrdinalScale) (c : JsVal) : float :=
  match sample_index sample_to_string (sample_to_string c) (ordinal_domain s) 0 with
  | Some i =>
      let i := if sample_reverse s then length (ordinal_domain s) - 1 - i else i in
      (sample_start s + sample_step s * float_of_nat i)%float
  | None => PrimFloat.nan
  end.

(** The runtime of the examples.  The axis component puts the tick of an
    element in the middle of its band.  No built-in object of the examples
    has a member named [enableAxis] or [show]: each read of one computes to
    [undefined]. *)
#[global] Instance sample_runtime : Runtime :=
  {| number_to_string := sample_number_to_string;
     builtin_to_string := sample_builtin_to_string;
     inherited := sample_inherited;
     linear := sample_linear;
     band := sample_band;
     rangeBand := sample_rangeBand;
     tick_offset := λ s c, (sample_band s c + sample_rangeBand s / 2)%float;
     enableAxis_not_inherited := λ v,
       match v with
       | VUndefined | VNull | VBool _ | VNum _ | VStr _ | VObj _ | VBuiltin _ => eq_refl
       end;
     show_not_inherited := λ v,
       match v with
       | VUndefined | VNull | VBool _ | VNum _ | VStr _ | VObj _ | VBuiltin _ => eq_refl
       end |}.

(** The table of the specification's scenario: four categories, four values,
    reported maximum 11. *)
Definition sample_category : DataViewCategoryColumn :=
  {| source := Some {| displayName := "Country" |};
     category_values := [VStr "China"; VStr "USA"; VStr "India"; VStr "Germany"] |}.

Definition sample_values : DataViewValueColumn :=
  {| column_values := [VNum 10; VNum 8; VNum 11; VNum 5]; maxLocal := VNum 11 |}.

(** A primary view with the given metadata objects and column lists. *)
Definition data_view (objects : JsVal) (cats : option (list DataViewCategoryColumn))
    (vals : option (list DataViewValueColumn)) : DataView :=
  {| metadata := {| objects := objects |};
     categorical := Some {| categories := cats; values := vals |} |}.

Definition sample_viewport : IViewport := {| width := 400; height := 300 |}.

Definition axis_setting (b : JsVal) : JsVal :=
  VObj {[ "enableAxis" := VObj {[ "show" := b ]} ]}.

Definition sample_options (objects : JsVal) : VisualUpdateOptions :=
  {| dataViews := Some [data_view objects (Some [sample_category]) (Some [sample_values])];
     viewport := sample_viewport |}.

(** A table whose columns differ in length: three categories, five values. *)
Definition uneven_category : DataViewCategoryColumn :=
  {| source := Some {| displayName := "Country" |};
     category_values := [VStr "China"; VStr "USA"; VStr "India"] |}.

Definition uneven_values : DataViewValueColumn :=
  {| column_values := [VNum 10; VNum 8; VNum 11; VNum 5; VNum 7]; maxLocal := VNum 11 |}.

Definition uneven_options : VisualUpdateOptions :=
  {| dataViews := Some [data_view VUndefined (Some [uneven_category]) (Some [uneven_values])];
     viewport := sample_viewport |}.

(** A table whose reported maximum, 11, exceeds every value it holds. *)
Definition stale_values : DataViewValueColumn :=
  {| column_values := [VNum 10; VNum 8; VNum 5]; maxLocal := VNum 11 |}.

Definition stale_options : VisualUpdateOptions :=
  {| dataViews := Some [data_view VUndefined (Some [uneven_category]) (Some [stale_values])];
     viewport := sample_viewport |}.

(** The visual after two updates with the sample table: the first with the
    axis enabled, the second with it disabled. *)
Definition axis_toggled_off : World :=
  step sample_host
    (step sample_host World_new (Update (sample_options (axis_setting (VBool true)))))
    (Update (sample_options (axis_setting (VBool false)))).

(** The view model of the sample table, the visual after one update with
    it (four bars), and the visual after one update with the uneven table
    (five bars). *)
Definition sample_viewModel : BarchartViewModel :=
  match visualTransform (sample_options VUndefined) sample_host with
  | Normal vm => vm
  | Throw _ => dataInfo
  end.

Definition four_bars : World := step sample_host World_new (Update (sample_options VUndefined)).

Definition five_bars : World := step sample_host World_new (Update uneven_options).

(** The bar of "India" in [four_bars], and the identity bound to it. *)
Definition india_bar : Rect :=
  default {| node := 0; attributes := ∅;
             datum := {| value := VUndefined; category := VUndefined; color := "";
                         selectionID := createSelectionId sample_host sample_category 0 |};
             onclick := None |}
    (barContainer (visual four_bars) !! 2).

Definition india_id : ISelectionId := createSelectionId sample_host sample_category 2.

(** Three bars, a click on the first, then an update that brings a fourth
    bar before the result of the click arrives. *)
Definition late_result : World :=
  step sample_host
    (step sample_host
       (step sample_host (step sample_host World_new (Update stale_options)) (Click 0))
       (Update (sample_options VUndefined)))
    (Resolve 0 [createSelectionId sample_host uneven_category 0]).

(** An update whose view has no category columns, although its metadata
    stores [show = true]. *)
Definition absent_options : VisualUpdateOptions :=
  {| dataViews := Some [data_view (axis_setting (VBool true)) None (Some [sample_values])];
     viewport := sample_viewport |}.

(** [four_bars] after a click on the bar of "India" was answered with that
    bar's identity. *)
Definition india_clicked : World :=
  step sample_host (step sample_host four_bars (Click 2)) (Resolve 0 [india_id]).

(** The bar of "China" in [four_bars]. *)
Definition china_bar : Rect :=
  default india_bar (barContainer (visual four_bars) !! 0).

(** A surface narrower than its four categories need: the bands of the
    category scale have step 0 and all start at the same position. *)
Definition narrow_viewport : IViewport := {| width := 3; height := 300 |}.
(** ** Facts about the settings lookup *)

Section settings.
Context {rt : Runtime}.

Lemma get_stored m k p : m !! k = Some p → get (VObj m) k = Normal p.
Proof. intros Hp. simpl. by rewrite Hp. Qed.

Lemma get_not_stored m k : m !! k = None → get (VObj m) k = inherited (VObj ∅) k.
Proof. intros Hp. simpl. by rewrite Hp. Qed.

(** For names that no built-in object defines, the lookup answers from the
    stored properties alone. *)
Lemma getOptionValue_refines objects objectName propertyName defaultValue :
  (∀ v, inherited v objectName = Normal VUndefined) →
  (∀ v, inherited v propertyName = Normal VUndefined) →
  getOptionValue objects objectName propertyName defaultValue
  = Normal (resolved_option objects objectName propertyName defaultValue).
Proof.
  intros Hobject Hproperty. unfold getOptionValue, resolved_option.
  destruct objects as [| |b|x|s|m|b]; simpl; try reflexivity.
  - destruct b; [|reflexivity]. by rewrite Hobject.
  - destruct (negb _); [|reflexivity]. by rewrite Hobject.
  - destruct (negb _); [|reflexivity]. by rewrite Hobject.
  - destruct (m !! objectName) as [object|]; simpl; [|by rewrite Hobject].
    destruct object as [| |b|x|s|o|b]; simpl; try reflexivity.
    + destruct b; [|reflexivity]. by rewrite Hproperty.
    + destruct (negb _); [|reflexivity]. by rewrite Hproperty.
    + destruct (negb _); [|reflexivity]. by rewrite Hproperty.
    + destruct (o !! propertyName) as [property|]; simpl; [|by rewrite Hproperty].
      destruct property; reflexivity.
    + by rewrite Hproperty.
  - by rewrite Hobject.
Qed.

(** The setting the visual reads is named after no built-in member. *)
Lemma getOptionValue_setting objects defaultValue :
  getOptionValue objects "enableAxis" "show" defaultValue
  = Normal (resolved_option objects "enableAxis" "show" defaultValue).
Proof.
  apply getOptionValue_refines; [apply enableAxis_not_inherited | apply show_not_inherited].
Qed.


End settings.

(** ** Facts about the guard *)

(** What a passed guard establishes: each tested field is present.  The
    guard tests the two column arrays themselves and the first category
    column's [source]; it does not test [values[0]]. *)
Lemma no_data_false_inv options :
  no_data options = Normal false →
  ∃ dvs dv cat cats c src vals,
    dataViews options = Some dvs ∧ dvs !! 0 = Some dv ∧
    categorical dv = Some cat ∧ categories cat = Some cats ∧
    cats !! 0 = Some c ∧ source c = Some src ∧ values cat = Some vals.
Proof.
  unfold no_data, source0, category0, categories0, values0, categorical0, dataView0.
  destruct options as [[dvs|] vp]; simpl; [|discriminate].
  destruct (dvs !! 0) as [dv|] eqn:Hdv; simpl; [|discriminate].
  destruct dv as [md [cat|]]; simpl; [|discriminate].
  destruct cat as [[cats|] vals]; simpl; [|discriminate].
  destruct (cats !! 0) as [c|] eqn:Hc; simpl; [|discriminate].
  destruct c as [[src|] cvs]; simpl; [|discriminate].
  destruct vals as [vals|]; simpl; [|discriminate].
  intros _. eexists dvs, _, _, cats, _, src, vals. repeat split; eauto.
Qed.

(** The guard answers [true] exactly in the six situations it names, each
    reached only when the fields before it are present. *)
Lemma no_data_true_iff options :
  no_data options = Normal true ↔
    dataViews options = None
    ∨ dataView0 options = Normal None
    ∨ categorical0 options = Normal None
    ∨ categories0 options = Normal None
    ∨ source0 options = Normal None
    ∨ ((∃ src, source0 options = Normal (Some src)) ∧ values0 options = Normal None).
Proof.
  unfold no_data, source0, category0, categories0, values0, categorical0, dataView0.
  destruct options as [[dvs|] vp]; simpl; [|naive_solver].
  destruct (dvs !! 0) as [dv|] eqn:Hdv; simpl; [|naive_solver].
  destruct dv as [md [cat|]]; simpl; [|naive_solver].
  destruct cat as [[cats|] vals]; simpl; [|naive_solver].
  destruct (cats !! 0) as [c|] eqn:Hc; simpl; [|naive_solver].
  destruct c as [[src|] cvs]; simpl; [|naive_solver].
  destruct vals as [vals|]; simpl; naive_solver.
Qed.

Section transformation.
Context {rt : Runtime}.

(** Whenever the guard answers [true], the empty view model is returned. *)
Lemma visualTransform_no_data options host :
  no_data options = Normal true → visualTransform options host = Normal dataInfo.
Proof. unfold visualTransform. intros ->. reflexivity. Qed.

(** The view model built from a table with a first category column and a
    first value column. *)
Lemma visualTransform_data options host c v :
  no_data options = Normal false →
  category0 options = Normal (Some c) →
  dataValue0 options = Normal (Some v) →
  ∃ dv,
    dataView0 options = Normal (Some dv) ∧
    visualTransform options host = Normal
      {| dataPoints :=
           (λ i, {| category := element (category_values c) i;
                    value := element (column_values v) i;
                    color := getColor host (element (category_values c) i);
                    selectionID := createSelectionId host c i |})
           <$> seq 0 (length (category_values c) `max` length (column_values v));
         dataMax := maxLocal v;
         settings := {| enableAxis := {| show :=
           resolved_option (objects (metadata dv)) "enableAxis" "show" (VBool false) |} |} |}.
Proof.
  intros Hguard Hc Hv.
  destruct (no_data_false_inv _ Hguard)
    as (dvs & dv & cat & cats & c' & src & vals & Hdvs & Hdv & Hcat & Hcats & Hc' & Hsrc & Hvals).
  unfold visualTransform. rewrite Hguard. simpl.
  revert Hc Hv.
  unfold dataValue0, values0, category0, categories0, categorical0, dataView0.
  rewrite Hdvs. simpl. rewrite Hdv. simpl. rewrite Hcat. simpl.
  rewrite Hcats, Hvals. simpl. rewrite Hc'. intros [= ->].
  destruct (vals !! 0) as [v'|]; intros [= ->].
  exists dv. split; [reflexivity|].
  rewrite getOptionValue_setting. reflexivity.
Qed.

End transformation.

(** ** Claims about the settings lookup *)


(** C10, as worded, fails: for a name that the built-in prototypes define, a
    property stored as [null] is not treated as an absent one.  Stored as
    [null], [toString] resolves to the default; absent, it resolves to the
    function every plain object inherits. *)
Lemma getOptionValue_null_differs_from_absent :
  getOptionValue (VObj {[ "enableAxis" := VObj {[ "toString" := VNull ]} ]})
    "enableAxis" "toString" (VBool false)
  = Normal (VBool false)
  ∧ getOptionValue (VObj {[ "enableAxis" := VObj ∅ ]}) "enableAxis" "toString" (VBool false)
    = Normal (VBuiltin "Object.prototype.toString")
  ∧ getOptionValue (VObj {[ "enableAxis" := VObj ∅ ]}) "enableAxis" "toString" (VBool false)
    ≠ getOptionValue (VObj {[ "enableAxis" := VObj {[ "toString" := VNull ]} ]})
        "enableAxis" "toString" (VBool false).
Proof.
  split; [vm_compute; reflexivity|]. split; [vm_compute; reflexivity|].
  vm_compute. discriminate.
Qed.

Section lookup_claims.
Context {rt : Runtime}.


(** C10, amended: a property stored as [null] resolves to the default and not
    to [null], as does a stored [undefined] and as does a property that is
    neither stored nor inherited; a property that is not stored but inherited
    resolves to the inherited member; a property that is neither [null] nor
    [undefined] is returned as it is. *)
Theorem getOptionValue_null_is_absent m o objectName propertyName defaultValue :
  m !! objectName = Some (VObj o) →
  (o !! propertyName = Some VNull →
     getOptionValue (VObj m) objectName propertyName defaultValue = Normal defaultValue)
  ∧ (o !! propertyName = Some VUndefined →
     getOptionValue (VObj m) objectName propertyName defaultValue = Normal defaultValue)
  ∧ (o !! propertyName = None → inherited (VObj ∅) propertyName = Normal VUndefined →
     getOptionValue (VObj m) objectName propertyName defaultValue = Normal defaultValue)
  ∧ (∀ p, o !! propertyName = None → inherited (VObj ∅) propertyName = Normal p →
     loose_eq_undefined p = false →
     getOptionValue (VObj m) objectName propertyName defaultValue = Normal p)
  ∧ (∀ p, o !! propertyName = Some p → loose_eq_undefined p = false →
     getOptionValue (VObj m) objectName propertyName defaultValue = Normal p)
  ∧ (∀ p, loose_eq_undefined p = false ↔ p ≠ VNull ∧ p ≠ VUndefined)
  ∧ (∀ p, getOptionValue (VObj m) objectName propertyName defaultValue = Normal p →
     p = defaultValue ∨ loose_eq_undefined p = false).
Proof.
  intros Hobject. unfold getOptionValue. cbn [toBoolean].
  rewrite (get_stored _ _ _ Hobject). cbn [mbind completion_bind toBoolean].
  split; [|split; [|split; [|split; [|split; [|split]]]]].
  - intros Hp. by rewrite (get_stored _ _ _ Hp).
  - intros Hp. by rewrite (get_stored _ _ _ Hp).
  - intros Hp Hnone. by rewrite (get_not_stored _ _ Hp), Hnone.
  - intros p Hp Hinherited Hdefined. rewrite (get_not_stored _ _ Hp), Hinherited.
    cbn [mbind completion_bind]. by rewrite Hdefined.
  - intros p Hp Hdefined. rewrite (get_stored _ _ _ Hp). cbn [mbind completion_bind].
    by rewrite Hdefined.
  - intros p. split.
    + destruct p; simpl; intros; split; congruence.
    + intros [Hnull Hundef]. destruct p; simpl; congruence.
  - intros p. destruct (get (VObj o) propertyName) as [q|e]; cbn [mbind completion_bind];
      [|discriminate].
    destruct (loose_eq_undefined q) eqn:Hq; cbn [negb]; intros [= <-]; auto.
Qed.

End lookup_claims.

(** A setting stored as [null], and a settings object that stores none. *)
Lemma getOptionValue_null_is_absent_witness :
  getOptionValue (axis_setting VNull) "enableAxis" "show" (VBool true) = Normal (VBool true)
  ∧ getOptionValue (VObj {[ "enableAxis" := VObj ∅ ]}) "enableAxis" "show" (VBool true)
    = Normal (VBool true)
  ∧ getOptionValue (axis_setting (VStr "no")) "enableAxis" "show" (VBool true)
    = Normal (VStr "no").
Proof.
  split; [|split].
  - exact (proj1 (getOptionValue_null_is_absent
                    {[ "enableAxis" := VObj {[ "show" := VNull ]} ]} {[ "show" := VNull ]}
                    "enableAxis" "show" (VBool true) eq_refl) eq_refl).
  - exact (proj1 (proj2 (proj2 (getOptionValue_null_is_absent
                    {[ "enableAxis" := VObj ∅ ]} ∅
                    "enableAxis" "show" (VBool true) eq_refl))) eq_refl eq_refl).
  - exact (proj1 (proj2 (proj2 (proj2 (proj2 (getOptionValue_null_is_absent
                    {[ "enableAxis" := VObj {[ "show" := VStr "no" ]} ]}
                    {[ "show" := VStr "no" ]}
                    "enableAxis" "show" (VBool true) eq_refl))))) (VStr "no") eq_refl eq_refl).
Defined.

(** ** Claims about the data transformation *)

Section transformation_claims.
Context {rt : Runtime}.

(** X1: the view model is empty in each situation the guard names. *)
Lemma visualTransform_empty options host :
  dataViews options = None
  ∨ dataView0 options = Normal None
  ∨ categorical0 options = Normal None
  ∨ categories0 options = Normal None
  ∨ source0 options = Normal None
  ∨ ((∃ src, source0 options = Normal (Some src)) ∧ values0 options = Normal None) →
  visualTransform options host = Normal dataInfo.
Proof. intros H. apply visualTransform_no_data, no_data_true_iff, H. Qed.

(** C1 at its failing input: a categorical section whose list of category
    columns is empty has no category column, and [visualTransform] throws a
    TypeError on [categories[0].source] instead of returning the empty view
    model. *)
Theorem visualTransform_throws_without_category_column host objects vals viewport :
  visualTransform
    {| dataViews := Some [data_view objects (Some []) vals]; viewport := viewport |} host
  = Throw TypeError.
Proof. unfold visualTransform, no_data, source0, category0, categories0. reflexivity. Qed.

(** The same slip on the value side: an empty list of value columns passes
    the guard, and the first read through [dataValue] throws. *)
Lemma visualTransform_throws_without_value_column host objects c src viewport :
  source c = Some src →
  visualTransform
    {| dataViews := Some [data_view objects (Some [c]) (Some [])]; viewport := viewport |} host
  = Throw TypeError.
Proof.
  intros Hsrc.
  unfold visualTransform, no_data, source0, category0, categories0. simpl.
  rewrite Hsrc. simpl. rewrite getOptionValue_setting. reflexivity.
Qed.

(** C3: for a table that passes the guard, with [column] its category
    column and [dataValue] its value column, one data point is built per
    index below the greater of the two lengths, and a field read past the
    end of its column is [undefined]. *)
Theorem dataPoints_length options host column dataValue :
  no_data options = Normal false →
  category0 options = Normal (Some column) →
  dataValue0 options = Normal (Some dataValue) →
  ∃ vm,
    visualTransform options host = Normal vm ∧
    length (dataPoints vm)
      = length (category_values column) `max` length (column_values dataValue) ∧
    (∀ i, i < length (dataPoints vm) →
       ∃ dp, dataPoints vm !! i = Some dp ∧
         category dp = element (category_values column) i ∧
         value dp = element (column_values dataValue) i ∧
         (length (category_values column) ≤ i → category dp = VUndefined) ∧
         (length (column_values dataValue) ≤ i → value dp = VUndefined)).
Proof.
  intros Hguard Hc Hv.
  destruct (visualTransform_data options host _ _ Hguard Hc Hv) as (dv & _ & ->).
  eexists. split; [reflexivity|]. simpl.
  split; [by rewrite length_fmap, length_seq|].
  intros i Hi. rewrite length_fmap, length_seq in Hi.
  eexists. rewrite list_lookup_fmap, lookup_seq_lt by done. simpl.
  split; [reflexivity|]. simpl. repeat split.
  - intros Hle. unfold element. by rewrite (lookup_ge_None_2 _ _ Hle).
  - intros Hle. unfold element. by rewrite (lookup_ge_None_2 _ _ Hle).
Qed.

(** C4: for a table that passes the guard, [dataMax] is the [maxLocal] field
    of the value column, whatever the values of the column are. *)
Theorem dataMax_verbatim options host column dataValue :
  no_data options = Normal false →
  category0 options = Normal (Some column) →
  dataValue0 options = Normal (Some dataValue) →
  ∃ vm, visualTransform options host = Normal vm ∧ dataMax vm = maxLocal dataValue.
Proof.
  intros Hguard Hc Hv.
  destruct (visualTransform_data options host _ _ Hguard Hc Hv) as (dv & _ & ->).
  eexists. split; reflexivity.
Qed.

End transformation_claims.

Lemma dataPoints_length_witness :
  ∃ vm, visualTransform uneven_options sample_host = Normal vm ∧
        length (dataPoints vm) = 5 ∧
        category <$> dataPoints vm
          = [VStr "China"; VStr "USA"; VStr "India"; VUndefined; VUndefined].
Proof.
  destruct (dataPoints_length uneven_options sample_host uneven_category uneven_values
              eq_refl eq_refl eq_refl) as (vm & Hvm & Hlen & _).
  exists vm. split; [exact Hvm|]. split; [exact Hlen|].
  injection Hvm as <-. reflexivity.
Defined.

Lemma dataMax_verbatim_witness :
  ∃ vm, visualTransform stale_options sample_host = Normal vm ∧
        dataMax vm = VNum 11 ∧
        value <$> dataPoints vm = [VNum 10; VNum 8; VNum 5].
Proof.
  destruct (dataMax_verbatim stale_options sample_host uneven_category stale_values
              eq_refl eq_refl eq_refl) as (vm & Hvm & Hmax).
  exists vm. split; [exact Hvm|]. split; [exact Hmax|].
  injection Hvm as <-. reflexivity.
Defined.

(** ** Selections *)

Lemma each_app sel f (l1 l2 : list Rect) :
  each sel f (l1 ++ l2) = each sel f l1 ++ each sel f l2.
Proof. apply fmap_app. Qed.

Lemma each_cons sel f (r : Rect) (l : list Rect) :
  each sel f (r :: l) = (if decide (node r ∈ sel) then f r else r) :: each sel f l.
Proof. reflexivity. Qed.

Lemma each_all sel f (l : list Rect) :
  (∀ r, r ∈ l → node r ∈ sel) → each sel f l = f <$> l.
Proof.
  intros Hall. unfold each. apply list_fmap_ext. intros i r Hr.
  rewrite decide_True; [done|]. apply Hall. by eapply list_elem_of_lookup_2.
Qed.

Lemma each_none sel f (l : list Rect) :
  (∀ r, r ∈ l → node r ∉ sel) → each sel f l = l.
Proof.
  intros Hnone. unfold each. rewrite <- (list_fmap_id l) at 2.
  apply list_fmap_ext. intros i r Hr.
  rewrite decide_False; [done|]. apply Hnone. by eapply list_elem_of_lookup_2.
Qed.

Lemma each_nodes sel f (l : list Rect) :
  (∀ r, node (f r) = node r) → node <$> each sel f l = node <$> l.
Proof.
  intros Hf. unfold each. rewrite <- list_fmap_compose.
  apply list_fmap_ext. intros i r _. simpl. case_decide; [apply Hf|done].
Qed.

Lemma remove_app sel (l1 l2 : list Rect) :
  remove sel (l1 ++ l2) = remove sel l1 ++ remove sel l2.
Proof. apply filter_app. Qed.

Lemma remove_all sel (l : list Rect) :
  (∀ r, r ∈ l → node r ∈ sel) → remove sel l = [].
Proof.
  intros Hall. unfold remove. induction l as [|r l IH]; [done|].
  rewrite filter_cons_False.
  - apply IH. intros r' Hr'. apply Hall. by right.
  - intros Hnot. apply Hnot, Hall. by left.
Qed.

Lemma remove_none sel (l : list Rect) :
  (∀ r, r ∈ l → node r ∉ sel) → remove sel l = l.
Proof.
  intros Hnone. unfold remove. induction l as [|r l IH]; [done|].
  rewrite filter_cons_True.
  - f_equal. apply IH. intros r' Hr'. apply Hnone. by right.
  - apply Hnone. by left.
Qed.

Lemma selectAll_bar_all (c : list Rect) :
  (∀ r, r ∈ c → is_bar r = true) → selectAll_bar c = node <$> c.
Proof.
  intros Hbars. unfold selectAll_bar. f_equal.
  induction c as [|r c IH]; [done|].
  rewrite filter_cons_True.
  - f_equal. apply IH. intros r' Hr'. apply Hbars. by right.
  - apply Is_true_true, Hbars. by left.
Qed.

(** ** The join by index *)

Lemma rebind_nodes c values : node <$> rebind c values = node <$> c.
Proof.
  revert values. induction c as [|r c IH]; intros [|d values]; simpl; try done.
  by rewrite IH.
Qed.

Lemma rebind_length c values : length (rebind c values) = length c.
Proof. by rewrite <- (length_fmap node), rebind_nodes, length_fmap. Qed.

Lemma rebind_take c values :
  rebind c values = rebind (take (length values) c) values ++ drop (length values) c.
Proof.
  revert values. induction c as [|r c IH]; intros [|d values]; simpl; try done.
  by rewrite <- IH.
Qed.

Lemma rebind_same c : rebind c (datum <$> c) = c.
Proof. induction c as [|[n a d l] c IH]; csimpl; [done|]. by rewrite IH. Qed.

Lemma rebind_datum c values :
  length c ≤ length values → datum <$> rebind c values = take (length c) values.
Proof.
  revert values. induction c as [|r c IH]; intros [|d values] Hlen; simpl in *; try done; try lia.
  rewrite IH by lia. done.
Qed.

Lemma bind_data_app c1 c2 values :
  NoDup (node <$> c2) →
  (∀ r, r ∈ c1 → node r ∉ node <$> c2) →
  bind_data (node <$> c2) values (c1 ++ c2) = c1 ++ rebind c2 values.
Proof.
  revert c1 values. induction c2 as [|r c2 IH]; intros c1 values Hdup Hdisj; [done|].
  destruct values as [|d values]; [done|].
  rewrite fmap_cons in Hdup |- *. apply NoDup_cons in Hdup as [Hr Hdup].
  cbn [bind_data rebind].
  rewrite each_app, each_none.
  2:{ intros r' Hr' Hin. apply list_elem_of_singleton in Hin.
      apply (Hdisj r' Hr'). rewrite Hin, fmap_cons. by left. }
  rewrite each_cons, decide_True by (by apply list_elem_of_singleton).
  rewrite each_none.
  2:{ intros r' Hr' Hin. apply list_elem_of_singleton in Hin.
      apply Hr. rewrite <- Hin. by apply list_elem_of_fmap_2. }
  rewrite (cons_middle (set_datum d r)), app_assoc, IH; [by rewrite <- app_assoc|done|].
  intros r' Hr'. apply elem_of_app in Hr' as [Hr'|Hr'].
  - intros Hin. apply (Hdisj r' Hr'). rewrite fmap_cons. by right.
  - apply list_elem_of_singleton in Hr' as ->. done.
Qed.

Lemma bind_data_nodup c values :
  NoDup (node <$> c) → bind_data (node <$> c) values c = rebind c values.
Proof.
  intros Hdup. apply (bind_data_app [] c values Hdup). intros r Hr. by apply elem_of_nil in Hr.
Qed.

(** ** Created elements *)

Lemma append_rect_nodes next enter : node <$> append_rect next enter = seq next (length enter).
Proof.
  unfold append_rect. revert next. induction enter as [|d enter IH]; intros next; [done|].
  rewrite imap_cons, fmap_cons. simpl. f_equal; [lia|].
  rewrite <- IH. f_equal. apply imap_ext. intros j d' _. simpl. f_equal. lia.
Qed.

Lemma append_rect_datum next enter : datum <$> append_rect next enter = enter.
Proof.
  unfold append_rect. revert next. induction enter as [|d enter IH]; intros next; [done|].
  rewrite imap_cons, fmap_cons. simpl. f_equal.
  rewrite <- (IH (S next)) at 2. f_equal. apply imap_ext. intros j d' _. simpl. f_equal. lia.
Qed.

Lemma classed_bar_nodes (l : list Rect) : node <$> (classed_bar <$> l) = node <$> l.
Proof. rewrite <- list_fmap_compose. by apply list_fmap_ext. Qed.

Lemma classed_bar_datum (l : list Rect) : datum <$> (classed_bar <$> l) = datum <$> l.
Proof. rewrite <- list_fmap_compose. by apply list_fmap_ext. Qed.

Section render_facts.
Context {rt : Runtime}.

Lemma joined_nodes this values :
  node <$> joined this values
  = take (length values) (node <$> barContainer this)
    ++ seq (next_node this) (length (drop (length (barContainer this)) values)).
Proof.
  unfold joined.
  by rewrite fmap_app, rebind_nodes, fmap_take, classed_bar_nodes, append_rect_nodes.
Qed.

Lemma joined_length this values : length (joined this values) = length values.
Proof.
  rewrite <- (length_fmap node), joined_nodes.
  rewrite length_app, length_take, length_seq, length_drop, length_fmap. lia.
Qed.

Lemma joined_datum this values : datum <$> joined this values = values.
Proof.
  unfold joined. rewrite fmap_app, classed_bar_datum, append_rect_datum.
  rewrite rebind_datum by (rewrite length_take; lia).
  rewrite length_take.
  destruct (decide (length values ≤ length (barContainer this))) as [Hle|Hgt].
  - rewrite Nat.min_l by done. rewrite firstn_all, drop_ge by done. by rewrite app_nil_r.
  - rewrite Nat.min_r by lia. apply take_drop.
Qed.

Lemma paint_node this vm vp r : node (paint this vm vp r) = node r.
Proof. reflexivity. Qed.

Lemma paint_datum this vm vp r : datum (paint this vm vp r) = datum r.
Proof. reflexivity. Qed.

Lemma paint_nodes this vm vp (l : list Rect) : node <$> (paint this vm vp <$> l) = node <$> l.
Proof. rewrite <- list_fmap_compose. by apply list_fmap_ext. Qed.

(** The container after [update]: the joined bars, painted. *)
Lemma render_container this vm vp :
  container_ok this →
  barContainer (render this vm vp) = paint this vm vp <$> joined this (dataPoints vm).
Proof.
  intros [Hdup Hknown Hbars _].
  unfold render. cbn [barContainer].
  rewrite (selectAll_bar_all _ Hbars), (bind_data_nodup _ _ Hdup).
  unfold data. cbn [update_selection enter_selection exit_selection].
  rewrite length_fmap.
  set (c := barContainer this) in *. set (values := dataPoints vm).
  set (news := classed_bar <$> append_rect (next_node this) (drop (length c) values)).
  set (bars := take (length values) (node <$> c) ++ (node <$> news)).
  set (F := bar_attributes _ _ _). set (G := on_click _).
  assert (Hpaint : ∀ r, paint this vm vp r = G (F r)).
  { intros r. unfold paint, G, F, bars, news, c, values.
    by rewrite joined_nodes, classed_bar_nodes, append_rect_nodes. }
  assert (Hsplit : NoDup (take (length values) (node <$> c) ++ drop (length values) (node <$> c)))
    by (by rewrite take_drop).
  apply NoDup_app in Hsplit as (_ & Hsplit & _).
  assert (Hnew : ∀ n, n ∈ node <$> news → next_node this ≤ n).
  { intros n. unfold news. rewrite classed_bar_nodes, append_rect_nodes, elem_of_seq. lia. }
  assert (Hold : ∀ n, n ∈ node <$> c → n < next_node this).
  { intros n (r & -> & Hr)%list_elem_of_fmap. by apply Hknown. }
  rewrite (rebind_take c values).
  set (K := rebind (take (length values) c) values).
  assert (HK : node <$> K = take (length values) (node <$> c))
    by (unfold K; by rewrite rebind_nodes, fmap_take).
  rewrite <- app_assoc, !each_app, !remove_app.
  (* the retained elements *)
  rewrite (each_all bars F K).
  2:{ intros r Hr. unfold bars. apply elem_of_app. left.
      rewrite <- HK. by apply list_elem_of_fmap_2. }
  rewrite (each_all bars G (F <$> K)).
  2:{ intros r (r0 & -> & Hr)%list_elem_of_fmap. unfold bars. apply elem_of_app. left.
      rewrite <- HK. change (node (F r0)) with (node r0). by apply list_elem_of_fmap_2. }
  rewrite (remove_none _ (G <$> (F <$> K))).
  2:{ intros r (r1 & -> & (r0 & -> & Hr)%list_elem_of_fmap)%list_elem_of_fmap.
      change (node (G (F r0))) with (node r0).
      apply Hsplit. rewrite <- HK. by apply list_elem_of_fmap_2. }
  (* the elements left without a value *)
  assert (Hgone : ∀ r, r ∈ drop (length values) c → node r ∈ drop (length values) (node <$> c)).
  { intros r Hr. rewrite <- fmap_drop. by apply list_elem_of_fmap_2. }
  rewrite (each_none bars F (drop (length values) c)).
  2:{ intros r Hr Hin. apply Hgone in Hr. unfold bars in Hin.
      apply elem_of_app in Hin as [Hin|Hin].
      - by apply (Hsplit _ Hin).
      - apply Hnew in Hin. assert (node r < next_node this); [|lia].
        apply Hold. eapply subseteq_drop, Hr. }
  rewrite (each_none bars G (drop (length values) c)).
  2:{ intros r Hr Hin. apply Hgone in Hr. unfold bars in Hin.
      apply elem_of_app in Hin as [Hin|Hin].
      - by apply (Hsplit _ Hin).
      - apply Hnew in Hin. assert (node r < next_node this); [|lia].
        apply Hold. eapply subseteq_drop, Hr. }
  rewrite (remove_all _ (drop (length values) c)) by done.
  (* the created elements *)
  rewrite (each_all bars F news).
  2:{ intros r Hr. unfold bars. apply elem_of_app. right. by apply list_elem_of_fmap_2. }
  rewrite (each_all bars G (F <$> news)).
  2:{ intros r (r0 & -> & Hr)%list_elem_of_fmap. unfold bars. apply elem_of_app. right.
      change (node (F r0)) with (node r0). by apply list_elem_of_fmap_2. }
  rewrite (remove_none _ (G <$> (F <$> news))).
  2:{ intros r (r1 & -> & (r0 & -> & Hr)%list_elem_of_fmap)%list_elem_of_fmap Hin.
      change (node (G (F r0))) with (node r0) in Hin.
      assert (next_node this ≤ node r0) by (apply Hnew; by apply list_elem_of_fmap_2).
      assert (node r0 < next_node this); [|lia].
      apply Hold. eapply subseteq_drop, Hin. }
  unfold joined. fold c values news K.
  rewrite app_nil_l, fmap_app, <- !list_fmap_compose.
  f_equal; apply list_fmap_ext; intros i r _; simpl; by rewrite Hpaint.
Qed.

End render_facts.

(** ** The invariant of the bar container *)

Lemma is_bar_attr name v r :
  name ≠ "class" → is_bar (rect_attr name v r) = is_bar r.
Proof.
  intros Hname. unfold is_bar, rect_attr, attr. cbn [attributes].
  destruct (loose_eq_undefined _).
  - by rewrite lookup_delete_ne.
  - by rewrite lookup_insert_ne.
Qed.

Lemma is_bar_classed r : is_bar (classed_bar r) = true.
Proof. unfold is_bar, classed_bar, rect_attr, attr. simpl. by rewrite lookup_insert_eq. Qed.

Lemma rebind_bars c values :
  (∀ r, r ∈ c → is_bar r = true) → ∀ r, r ∈ rebind c values → is_bar r = true.
Proof.
  revert values. induction c as [|r0 c IH]; intros [|d values] Hc r Hr; simpl in Hr;
    try by apply Hc.
  apply elem_of_cons in Hr as [->|Hr].
  - apply (Hc r0). by left.
  - apply (IH values); [|done]. intros r' Hr'. apply Hc. by right.
Qed.

Section invariant.
Context {rt : Runtime} (host : IVisualHost).

Lemma is_bar_paint this vm vp r : is_bar (paint this vm vp r) = is_bar r.
Proof.
  unfold paint, bar_attributes.
  change (is_bar (on_click ?l ?r)) with (is_bar r).
  by rewrite !is_bar_attr.
Qed.

Lemma joined_bars this values :
  (∀ r, r ∈ barContainer this → is_bar r = true) →
  ∀ r, r ∈ joined this values → is_bar r = true.
Proof.
  intros Hc r. unfold joined. rewrite elem_of_app. intros [Hr|Hr].
  - eapply rebind_bars; [|done]. intros r' Hr'. apply Hc. eapply subseteq_take, Hr'.
  - apply list_elem_of_fmap in Hr as (r0 & -> & _). apply is_bar_classed.
Qed.

Lemma render_next_node this vm vp :
  container_ok this →
  next_node (render this vm vp)
  = next_node this + length (drop (length (barContainer this)) (dataPoints vm)).
Proof.
  intros [_ _ Hbars _]. unfold render. cbn [next_node]. unfold data. cbn [enter_selection].
  rewrite (selectAll_bar_all _ Hbars), !length_fmap. unfold append_rect.
  by rewrite length_imap.
Qed.

Lemma container_ok_new : container_ok Visual_new.
Proof.
  split; simpl.
  - constructor.
  - intros r Hr. by apply elem_of_nil in Hr.
  - intros r Hr. by apply elem_of_nil in Hr.
  - intros r Hr. by apply elem_of_nil in Hr.
Qed.

Lemma container_ok_render this vm vp :
  container_ok this → container_ok (render this vm vp).
Proof.
  intros Hok. pose proof Hok as [Hdup Hknown Hbars _].
  assert (Hnodes : node <$> barContainer (render this vm vp)
                   = node <$> joined this (dataPoints vm))
    by (by rewrite render_container, paint_nodes).
  assert (Hold : ∀ n, n ∈ node <$> barContainer this → n < next_node this).
  { intros n (r & -> & Hr)%list_elem_of_fmap. by apply Hknown. }
  split.
  - rewrite Hnodes, joined_nodes. apply NoDup_app. split; [|split].
    + eapply sublist_NoDup; [|apply sublist_take]. done.
    + intros n Hn Hseq. apply elem_of_seq in Hseq.
      assert (n < next_node this); [|lia]. apply Hold. eapply subseteq_take, Hn.
    + apply NoDup_seq.
  - intros r Hr. rewrite render_next_node by done.
    assert (Hn : node r ∈ node <$> barContainer (render this vm vp))
      by (by apply list_elem_of_fmap_2).
    rewrite Hnodes, joined_nodes in Hn. apply elem_of_app in Hn as [Hn|Hn].
    + assert (node r < next_node this); [|lia]. apply Hold. eapply subseteq_take, Hn.
    + apply elem_of_seq in Hn. lia.
  - intros r. rewrite render_container by done.
    intros (r0 & -> & Hr0)%list_elem_of_fmap. rewrite is_bar_paint.
    by eapply joined_bars.
  - intros r. rewrite Hnodes. rewrite render_container by done.
    by intros (r0 & -> & Hr0)%list_elem_of_fmap.
Qed.

Lemma container_ok_each v sel f :
  (∀ r, node (f r) = node r) → (∀ r, is_bar (f r) = is_bar r) →
  (∀ r, onclick (f r) = onclick r) →
  container_ok v → container_ok (with_container v (each sel f (barContainer v))).
Proof.
  intros Hnode Hbar Hclick [Hdup Hknown Hbars Hlis].
  assert (Hin : ∀ r, r ∈ each sel f (barContainer v) →
                     ∃ r0, r0 ∈ barContainer v ∧ (r = f r0 ∨ r = r0)).
  { intros r (r0 & -> & Hr0)%list_elem_of_fmap. exists r0. case_decide; auto. }
  split; cbn [barContainer next_node with_container].
  - by rewrite each_nodes.
  - intros r (r0 & Hr0 & [-> | ->])%Hin; [rewrite Hnode|]; by apply Hknown.
  - intros r (r0 & Hr0 & [-> | ->])%Hin; [rewrite Hbar|]; by apply Hbars.
  - intros r (r0 & Hr0 & [-> | ->])%Hin; [rewrite Hclick|]; rewrite each_nodes by done;
      by apply Hlis.
Qed.

Lemma container_ok_on_selected v k ids :
  container_ok v → container_ok (with_container v (on_selected k ids (barContainer v))).
Proof.
  intros Hok. unfold on_selected, highlight_clicked, dim_all.
  apply (container_ok_each v (then_bars k) (rect_attr "fill-opacity" (λ _, dimmed ids)))
    in Hok; [|done|intros r; by apply is_bar_attr|done].
  apply (container_ok_each _ [then_this k] (rect_attr "fill-opacity" (λ _, VNum 1)))
    in Hok; [|done|intros r; by apply is_bar_attr|done].
  exact Hok.
Qed.

(** Every state the visual can be in satisfies the invariant. *)
Lemma reachable_ok w : reachable host w → container_ok (visual w).
Proof.
  induction 1 as [|w e _ IH]; [apply container_ok_new|].
  destruct e as [options|n|i ids]; simpl.
  - unfold update. destruct (visualTransform options host) as [vm|]; simpl; [|done].
    by apply container_ok_render.
  - unfold click. destruct (head _) as [r|]; [|done]. by destruct (onclick r).
  - unfold resolve. destruct (pending w !! i) as [k|]; [|done]. simpl.
    by apply container_ok_on_selected.
Qed.

End invariant.

(** ** Claims about the layout and the axis *)

Section layout.
Context {rt : Runtime}.

Lemma render_svg this vm vp :
  svg (render this vm vp)
  = attr "height" (VNum (height vp)) (attr "width" (VNum (width vp)) (svg this)).
Proof. reflexivity. Qed.

Lemma render_xAxis this vm vp :
  xAxis (render this vm vp)
  = {| axis_attributes :=
         attr "transform" (translate (plot_height (settings vm) (height vp)))
           (axis_attributes (xAxis this));
       axis_style :=
         attr "font-size"
           (VNum (times (d3_min [plot_height (settings vm) (height vp); width vp]) 0.04))
           (axis_style (xAxis this));
       axis_ticks := axis_call (xScale vm vp) |}.
Proof. reflexivity. Qed.

Lemma render_chartSettings this vm vp :
  chartSettings (render this vm vp) = Some (settings vm).
Proof. reflexivity. Qed.

Lemma unique_from_cons seen x xs :
  to_string x ∉ seen → unique_from seen (x :: xs) = x :: unique_from (to_string x :: seen) xs.
Proof. intros Hx. unfold unique_from. simpl. by rewrite decide_False. Qed.

Lemma xScale_configured vm vp :
  xScale vm vp
  = {| ordinal_domain := unique_from [] (category <$> dataPoints vm);
       band_interval := (0%float, width vp);
       padding := 0.1%float;
       outerPadding := 0.2%float |}.
Proof. reflexivity. Qed.

(** C5: the plot height is the surface height minus 25 when
    [settings.enableAxis.show] is true and the surface height itself when it
    is not, and only then wherever subtracting 25 changes the height at all
    (in binary64 it does not change a height of 2^60, say); the value scale
    ranges over it, the axis is anchored at it, and the surface and the
    category scale keep the full width. *)
Theorem plot_height_reserves_axis this vm vp :
  let h := plot_height (settings vm) (height vp) in
  (toBoolean (show (enableAxis (settings vm))) = true → h = (height vp - 25)%float)
  ∧ (toBoolean (show (enableAxis (settings vm))) = false → h = height vp)
  ∧ (∀ b, show (enableAxis (settings vm)) = VBool b →
       h = if b then (height vp - 25)%float else height vp)
  ∧ ((height vp - 25)%float ≠ height vp →
       (h = (height vp - 25)%float ↔ toBoolean (show (enableAxis (settings vm))) = true)
       ∧ (h = height vp ↔ toBoolean (show (enableAxis (settings vm))) = false))
  ∧ linear_range (yScale vm vp) = (h, 0%float)
  ∧ band_interval (xScale vm vp) = (0%float, width vp)
  ∧ svg (render this vm vp) !! "width" = Some (VNum (width vp))
  ∧ svg (render this vm vp) !! "height" = Some (VNum (height vp))
  ∧ axis_attributes (xAxis (render this vm vp)) !! "transform" = Some (translate h).
Proof.
  intros h. unfold h, plot_height.
  split; [by intros ->|]. split; [by intros ->|].
  split; [by intros b ->|].
  split; [intros Hne; destruct (toBoolean _); split; split; congruence|].
  split; [done|]. split; [done|].
  rewrite render_svg, render_xAxis. unfold attr, translate. simpl.
  split; [|split].
  - by rewrite lookup_insert_ne, lookup_insert_eq.
  - by rewrite lookup_insert_eq.
  - by rewrite lookup_insert_eq.
Qed.

Lemma unique_by_cons key seen x xs :
  key x ∉ seen → unique_by key seen (x :: xs) = x :: unique_by key (key x :: seen) xs.
Proof. intros Hx. simpl. by rewrite decide_False. Qed.

Lemma unique_by_length key seen xs : length (unique_by key seen xs) ≤ length xs.
Proof.
  revert seen. induction xs as [|x xs IH]; intros seen; simpl; [done|].
  case_decide; simpl; [specialize (IH seen)|specialize (IH (key x :: seen))]; lia.
Qed.

Lemma unique_by_sub key seen xs y : y ∈ unique_by key seen xs → y ∈ xs ∧ key y ∉ seen.
Proof.
  revert seen. induction xs as [|x xs IH]; intros seen; simpl; [by intros ?%elem_of_nil|].
  case_decide as Hx.
  - intros [Hy Hseen]%IH. split; [by right|done].
  - intros [->|[Hy Hseen]%IH]%elem_of_cons; [split; [by left|done]|].
    split; [by right|]. intros Hin. apply Hseen. by right.
Qed.

Lemma unique_by_keys key seen xs : NoDup (key <$> unique_by key seen xs).
Proof.
  revert seen. induction xs as [|x xs IH]; intros seen; simpl; [constructor|].
  case_decide as Hx; [apply IH|].
  rewrite fmap_cons. apply NoDup_cons. split; [|apply IH].
  intros (y & Hkey & [_ Hy]%unique_by_sub)%list_elem_of_fmap.
  apply Hy. rewrite <- Hkey. by left.
Qed.

Lemma unique_by_covers key seen xs x :
  x ∈ xs → key x ∈ seen ∨ key x ∈ key <$> unique_by key seen xs.
Proof.
  revert seen. induction xs as [|x0 xs IH]; intros seen; [by intros ?%elem_of_nil|].
  intros [->|Hx]%elem_of_cons; simpl.
  - case_decide; [by left|]. right. rewrite fmap_cons. by left.
  - case_decide as Hx0.
    + by apply IH.
    + destruct (IH (key x0 :: seen) Hx) as [[->|Hin]%elem_of_cons|Hin].
      * right. rewrite fmap_cons. by left.
      * by left.
      * right. rewrite fmap_cons. by right.
Qed.

(** The elements kept are a sublist of the list. *)
Lemma unique_by_sublist key seen xs : sublist (unique_by key seen xs) xs.
Proof.
  revert seen. induction xs as [|x xs IH]; intros seen; simpl; [done|].
  case_decide; [apply sublist_cons, IH|apply sublist_skip, IH].
Qed.

(** C2, amended: every call of [update] draws the axis ticks against the
    category scale and anchors them at the bottom of the plot area, whether
    [settings.enableAxis.show] is true or not; when it is not, the same ticks
    are drawn, anchored at the bottom edge of the surface.  The ticks are
    those of the categories, one per position of the scale: no two at one
    position, one at the position of every category, and so one at least
    when there is a data point. *)
Theorem axis_always_drawn this vm vp :
  let x := xScale vm vp in
  let ticks := axis_ticks (xAxis (render this vm vp)) in
  x = {| ordinal_domain := unique_from [] (category <$> dataPoints vm);
         band_interval := (0%float, width vp);
         padding := 0.1%float;
         outerPadding := 0.2%float |}
  ∧ ticks = (λ c, {| tick_datum := c; tick_at := tick_offset x c |})
            <$> unique_by (λ c, number_to_string (band x c)) [] (ordinal_domain x)
  ∧ (∀ d ds, dataPoints vm = d :: ds →
       ∃ ts, ticks = {| tick_datum := category d; tick_at := tick_offset x (category d) |} :: ts)
  ∧ (dataPoints vm ≠ [] → ticks ≠ [])
  ∧ NoDup (tick_key x ∘ tick_datum <$> ticks)
  ∧ (∀ c, c ∈ ordinal_domain x → tick_key x c ∈ (tick_key x ∘ tick_datum <$> ticks))
  ∧ (∀ t, t ∈ ticks → tick_datum t ∈ ordinal_domain x ∧ tick_at t = tick_offset x (tick_datum t))
  ∧ (∀ s, axis_ticks (xAxis (render this {| dataPoints := dataPoints vm;
                                            dataMax := dataMax vm;
                                            settings := s |} vp)) = ticks)
  ∧ axis_attributes (xAxis (render this vm vp)) !! "transform"
    = Some (translate (plot_height (settings vm) (height vp)))
  ∧ (toBoolean (show (enableAxis (settings vm))) = true →
       axis_attributes (xAxis (render this vm vp)) !! "transform"
       = Some (translate (height vp - 25)%float))
  ∧ (toBoolean (show (enableAxis (settings vm))) = false →
       axis_attributes (xAxis (render this vm vp)) !! "transform"
       = Some (translate (height vp))).
Proof.
  intros x ticks. unfold ticks, x. rewrite render_xAxis. cbn [axis_ticks axis_attributes].
  assert (Hanchor : ∀ h a, attr "transform" (translate h) a !! "transform" = Some (translate h)).
  { intros h a. unfold attr, translate. simpl. by rewrite lookup_insert_eq. }
  assert (Hfirst : ∀ d ds, dataPoints vm = d :: ds →
            ∃ ts, axis_call (xScale vm vp)
                  = {| tick_datum := category d;
                       tick_at := tick_offset (xScale vm vp) (category d) |} :: ts).
  { intros d ds Hd. unfold axis_call, tick_key.
    change (ordinal_domain (xScale vm vp)) with (unique_from [] (category <$> dataPoints vm)).
    rewrite Hd, fmap_cons.
    rewrite unique_from_cons by apply not_elem_of_nil.
    rewrite unique_by_cons by apply not_elem_of_nil.
    rewrite fmap_cons. by eexists. }
  assert (Hdata : tick_key (xScale vm vp) ∘ tick_datum <$> axis_call (xScale vm vp)
                  = tick_key (xScale vm vp)
                    <$> unique_by (tick_key (xScale vm vp)) [] (ordinal_domain (xScale vm vp))).
  { unfold axis_call. rewrite <- list_fmap_compose. by apply list_fmap_ext. }
  split; [done|]. split; [done|]. split; [exact Hfirst|].
  split; [|split; [|split; [|split; [|split; [done|split; [apply Hanchor|split]]]]]].
  - destruct (dataPoints vm) as [|d ds] eqn:Hd; [done|]. intros _.
    by destruct (Hfirst d ds eq_refl) as [ts ->].
  - rewrite Hdata. apply unique_by_keys.
  - intros c Hc. rewrite Hdata.
    destruct (unique_by_covers (tick_key (xScale vm vp)) [] _ c Hc) as [Hin|Hin];
      [by apply elem_of_nil in Hin|done].
  - intros t (c & -> & Hc)%list_elem_of_fmap. split; [|done].
    by apply unique_by_sub in Hc as [Hc _].
  - intros Hshow. rewrite Hanchor. unfold plot_height. by rewrite Hshow.
  - intros Hshow. rewrite Hanchor. unfold plot_height. by rewrite Hshow.
Qed.

End layout.

(** C2, as worded, fails: after the axis is enabled and then disabled, the
    setting in force is [show = false] and the four ticks are still drawn. *)
Lemma axis_drawn_when_disabled :
  chartSettings (visual axis_toggled_off) = Some {| enableAxis := {| show := VBool false |} |}
  ∧ tick_datum <$> axis_ticks (xAxis (visual axis_toggled_off))
    = [VStr "China"; VStr "USA"; VStr "India"; VStr "Germany"]
  ∧ axis_ticks (xAxis (visual axis_toggled_off)) ≠ []
  ∧ axis_attributes (xAxis (visual axis_toggled_off)) !! "transform"
    = Some (VStr "translate(0, 300)").
Proof.
  split; [reflexivity|]. split; [vm_compute; reflexivity|]. split; [|vm_compute; reflexivity].
  intros Hempty. apply (f_equal length) in Hempty. vm_compute in Hempty. discriminate.
Qed.

(** ** Claims about the bars *)

Lemma rebind_lookup c values i r d :
  c !! i = Some r → values !! i = Some d → rebind c values !! i = Some (set_datum d r).
Proof.
  revert values i. induction c as [|r0 c IH]; intros [|d0 values] [|i] Hr Hd;
    simplify_eq/=; [done|]. by apply IH.
Qed.

Lemma append_rect_lookup next enter j d :
  enter !! j = Some d →
  append_rect next enter !! j
  = Some {| node := next + j; attributes := ∅; datum := d; onclick := None |}.
Proof. intros Hd. unfold append_rect. by rewrite list_lookup_imap, Hd. Qed.

Section bars.
Context {rt : Runtime} (host : IVisualHost).

Lemma joined_lookup_retained this values i r d :
  barContainer this !! i = Some r → values !! i = Some d →
  joined this values !! i = Some (set_datum d r).
Proof.
  intros Hr Hd. unfold joined.
  apply lookup_lt_Some in Hd as Hi.
  rewrite lookup_app_l.
  - apply rebind_lookup; [|done]. by rewrite lookup_take_lt.
  - rewrite rebind_length, length_take. apply lookup_lt_Some in Hr. lia.
Qed.

Lemma joined_lookup_created this values i d :
  barContainer this !! i = None → values !! i = Some d →
  joined this values !! i
  = Some (classed_bar {| node := next_node this + (i - length (barContainer this));
                         attributes := ∅; datum := d; onclick := None |}).
Proof.
  intros Hr Hd. unfold joined.
  apply lookup_lt_Some in Hd as Hi. apply lookup_ge_None in Hr.
  rewrite lookup_app_r; rewrite rebind_length, length_take; [|lia].
  rewrite Nat.min_r by lia.
  rewrite list_lookup_fmap, (append_rect_lookup _ _ _ d); [done|].
  rewrite lookup_drop. rewrite <- Hd. f_equal. lia.
Qed.

(** The attributes [update] gives a bar, and the ones it leaves alone. *)
Lemma paint_attributes this vm vp r :
  let h := plot_height (settings vm) (height vp) in
  let a := attributes (paint this vm vp r) in
  a !! "width" = Some (VNum (rangeBand (xScale vm vp)))
  ∧ a !! "height" = Some (VNum (h - linear (yScale vm vp) (value (datum r)))%float)
  ∧ a !! "x" = Some (VNum (band (xScale vm vp) (category (datum r))))
  ∧ a !! "y" = Some (VNum (linear (yScale vm vp) (value (datum r))))
  ∧ a !! "fill" = Some (VStr (color (datum r)))
  ∧ (∀ name, name ∉ ["width"; "height"; "x"; "y"; "fill"] →
       a !! name = attributes r !! name).
Proof.
  intros h a. unfold a, paint, bar_attributes, rect_attr, attr, on_click. simpl.
  repeat split;
    try (repeat (rewrite lookup_insert_ne by done); by rewrite lookup_insert_eq).
  intros name Hname. rewrite !lookup_insert_ne; [done|..];
    intros <-; apply Hname; set_solver.
Qed.

(** C6: [update] reconciles the bars with the data points by position.  The
    container ends with one bar per data point; the bar at a position is the
    element that was there, kept and mutated in place, or a new element when
    there was none; it carries the data point and the five attributes
    computed from it with the value scale over [[0, dataMax] → [h, 0]] and
    the category scale, which lays the distinct categories, in the order of
    their first occurrence, over [[0, width]] with paddings 0.1 and 0.2; and
    an element at a position past the data points is removed. *)
Theorem bars_reconciled w vm vp :
  reachable host w →
  let this := visual w in
  let this' := render this vm vp in
  let h := plot_height (settings vm) (height vp) in
  length (barContainer this') = length (dataPoints vm)
  ∧ (∀ i d, dataPoints vm !! i = Some d →
       ∃ r', barContainer this' !! i = Some r'
         ∧ datum r' = d
         ∧ attributes r' !! "width" = Some (VNum (rangeBand (xScale vm vp)))
         ∧ attributes r' !! "height" = Some (VNum (h - linear (yScale vm vp) (value d))%float)
         ∧ attributes r' !! "x" = Some (VNum (band (xScale vm vp) (category d)))
         ∧ attributes r' !! "y" = Some (VNum (linear (yScale vm vp) (value d)))
         ∧ attributes r' !! "fill" = Some (VStr (color d))
         ∧ (∀ r, barContainer this !! i = Some r →
              node r' = node r
              ∧ ∀ name, name ∉ ["width"; "height"; "x"; "y"; "fill"] →
                        attributes r' !! name = attributes r !! name)
         ∧ (barContainer this !! i = None →
              (node r' ∉ node <$> barContainer this)
              ∧ attributes r' !! "class" = Some (VStr "bar")))
  ∧ (∀ i r, barContainer this !! i = Some r → length (dataPoints vm) ≤ i →
       node r ∉ node <$> barContainer this')
  ∧ linear_domain (yScale vm vp) = (VNum 0, dataMax vm)
  ∧ linear_range (yScale vm vp) = (h, 0%float)
  ∧ xScale vm vp
    = {| ordinal_domain := unique_from [] (category <$> dataPoints vm);
         band_interval := (0%float, width vp);
         padding := 0.1%float;
         outerPadding := 0.2%float |}.
Proof.
  intros Hw this this' h. pose proof (reachable_ok host w Hw) as Hok.
  pose proof Hok as [Hdup Hknown _ _]. fold this in Hok, Hdup, Hknown.
  assert (Hc : barContainer this' = paint this vm vp <$> joined this (dataPoints vm))
    by (by apply render_container).
  split; [by rewrite Hc, length_fmap, joined_length|].
  split; [|split; [|done]].
  - intros i d Hd. rewrite Hc, list_lookup_fmap.
    destruct (barContainer this !! i) as [r|] eqn:Hr.
    + rewrite (joined_lookup_retained this _ i r d Hr Hd). eexists. split; [done|].
      destruct (paint_attributes this vm vp (set_datum d r)) as (Hw' & Hh & Hx & Hy & Hf & Hrest).
      repeat (split; [done|]). split; [|done].
      intros r0 [= <-]. split; [done|]. exact Hrest.
    + rewrite (joined_lookup_created this _ i d Hr Hd). eexists. split; [done|].
      match goal with |- context [paint this vm vp ?r0] =>
        destruct (paint_attributes this vm vp r0) as (Hw' & Hh & Hx & Hy & Hf & Hrest) end.
      repeat (split; [done|]).
      intros _. split.
      * intros (r0 & Hnode & Hr0)%list_elem_of_fmap. apply Hknown in Hr0.
        simpl in Hnode. lia.
      * rewrite Hrest by set_solver. unfold classed_bar, rect_attr, attr. simpl.
        by rewrite lookup_insert_eq.
  - intros i r Hr Hi. rewrite Hc, paint_nodes, joined_nodes.
    intros [Hin|Hin]%elem_of_app.
    + apply list_elem_of_lookup in Hin as [j Hj].
      apply lookup_take_Some in Hj as [Hj Hlt].
      assert (i = j); [|lia].
      eapply NoDup_lookup; [exact Hdup| |exact Hj].
      by rewrite list_lookup_fmap, Hr.
    + apply elem_of_seq in Hin. apply list_elem_of_lookup_2, Hknown in Hr. lia.
Qed.

End bars.

(** ** Rendering twice *)

Lemma lookup_attr name v a k :
  attr name v a !! k
  = if decide (name = k) then (if loose_eq_undefined v then None else Some v) else a !! k.
Proof.
  unfold attr. destruct (loose_eq_undefined v); case_decide; subst.
  - apply lookup_delete_eq.
  - by apply lookup_delete_ne.
  - apply lookup_insert_eq.
  - by apply lookup_insert_ne.
Qed.

Lemma attr_idem name v a : attr name v (attr name v a) = attr name v a.
Proof. apply map_eq. intros k. rewrite !lookup_attr. by case_decide. Qed.

Lemma Visual_eq v1 v2 :
  svg v1 = svg v2 → barContainer v1 = barContainer v2 → xAxis v1 = xAxis v2 →
  chartSettings v1 = chartSettings v2 → next_node v1 = next_node v2 → v1 = v2.
Proof. destruct v1, v2. simpl. by intros -> -> -> -> ->. Qed.

Lemma Rect_eq r1 r2 :
  node r1 = node r2 → attributes r1 = attributes r2 → datum r1 = datum r2 →
  onclick r1 = onclick r2 → r1 = r2.
Proof. destruct r1, r2. simpl. by intros -> -> -> ->. Qed.

Section idempotence.
Context {rt : Runtime} (host : IVisualHost).

Lemma bar_attributes_attributes y x h r :
  attributes (bar_attributes y x h r)
  = attr "fill" (VStr (color (datum r)))
      (attr "y" (VNum (linear y (value (datum r))))
        (attr "x" (VNum (band x (category (datum r))))
          (attr "height" (VNum (h - linear y (value (datum r)))%float)
            (attr "width" (VNum (rangeBand x)) (attributes r))))).
Proof. reflexivity. Qed.

Lemma attr_set name v a :
  loose_eq_undefined v = false → a !! name = Some v → attr name v a = a.
Proof. intros Hv Ha. unfold attr. rewrite Hv. by apply insert_id. Qed.

Lemma bar_attributes_idem y x h r :
  bar_attributes y x h (bar_attributes y x h r) = bar_attributes y x h r.
Proof.
  apply Rect_eq; try reflexivity.
  rewrite (bar_attributes_attributes y x h (bar_attributes y x h r)).
  change (datum (bar_attributes y x h r)) with (datum r).
  set (A := attributes (bar_attributes y x h r)).
  assert (HA : A = attributes (bar_attributes y x h r)) by done.
  rewrite bar_attributes_attributes in HA.
  rewrite (attr_set "width" _ A); [|done|].
  2:{ rewrite HA, !lookup_attr. reflexivity. }
  rewrite (attr_set "height" _ A); [|done|].
  2:{ rewrite HA, !lookup_attr. reflexivity. }
  rewrite (attr_set "x" _ A); [|done|].
  2:{ rewrite HA, !lookup_attr. reflexivity. }
  rewrite (attr_set "y" _ A); [|done|].
  2:{ rewrite HA, !lookup_attr. reflexivity. }
  apply attr_set; [done|].
  rewrite HA, !lookup_attr. reflexivity.
Qed.

Lemma paint_idem this vm vp r : paint this vm vp (paint this vm vp r) = paint this vm vp r.
Proof.
  unfold paint.
  set (y := yScale vm vp). set (x := xScale vm vp). set (h := plot_height _ _).
  set (l := {| listener_bars := _ |}).
  apply Rect_eq; try reflexivity.
  change (attributes (bar_attributes y x h (bar_attributes y x h r))
          = attributes (bar_attributes y x h r)).
  by rewrite bar_attributes_idem.
Qed.

Lemma paint_same_bars this1 this2 vm vp r :
  node <$> joined this1 (dataPoints vm) = node <$> joined this2 (dataPoints vm) →
  paint this1 vm vp r = paint this2 vm vp r.
Proof. unfold paint. by intros ->. Qed.

(** Once rendered, the container is a fixed point of the join. *)
Lemma joined_rendered this vm vp :
  container_ok this →
  joined (render this vm vp) (dataPoints vm) = barContainer (render this vm vp).
Proof.
  intros Hok. unfold joined.
  assert (Hlen : length (barContainer (render this vm vp)) = length (dataPoints vm))
    by (by rewrite render_container, length_fmap, joined_length).
  assert (Hdatum : datum <$> barContainer (render this vm vp) = dataPoints vm).
  { rewrite render_container by done. rewrite <- list_fmap_compose.
    rewrite <- (joined_datum this (dataPoints vm)) at 2. by apply list_fmap_ext. }
  set (c1 := barContainer (render this vm vp)) in *.
  rewrite Hlen, drop_all. rewrite <- Hlen, firstn_all.
  rewrite <- Hdatum, rebind_same. apply app_nil_r.
Qed.

Lemma render_twice this vm vp :
  container_ok this → render (render this vm vp) vm vp = render this vm vp.
Proof.
  intros Hok. pose proof (container_ok_render this vm vp Hok) as Hok1.
  apply Visual_eq.
  - rewrite (render_svg (render this vm vp)), render_svg.
    apply map_eq. intros k. rewrite !lookup_attr. repeat case_decide; done.
  - rewrite (render_container (render this vm vp)) by done.
    rewrite joined_rendered by done. rewrite render_container by done.
    rewrite <- list_fmap_compose. apply list_fmap_ext. intros i r _. simpl.
    rewrite (paint_same_bars (render this vm vp) this).
    + apply paint_idem.
    + rewrite joined_rendered by done. rewrite render_container by done. apply paint_nodes.
  - rewrite (render_xAxis (render this vm vp)), render_xAxis. cbn [axis_attributes axis_style].
    by rewrite !attr_idem.
  - reflexivity.
  - rewrite (render_next_node (render this vm vp)) by done.
    rewrite render_container by done.
    rewrite length_fmap, joined_length, drop_all. simpl. lia.
Qed.

(** C9: calling [update] a second time with the same view model and the same
    surface dimensions leaves the visual as the first call left it: the same
    bars with the same attributes, data and listeners, and the same axis. *)
Theorem render_idempotent w vm vp :
  reachable host w →
  render (render (visual w) vm vp) vm vp = render (visual w) vm vp.
Proof. intros Hw. apply render_twice. by eapply reachable_ok. Qed.

(** The same through [update] and the whole step of the visual. *)
Lemma update_idempotent w options :
  reachable host w →
  step host (step host w (Update options)) (Update options) = step host w (Update options).
Proof.
  intros Hw. cbn [step]. unfold update.
  destruct (visualTransform options host) as [vm|e]; cbn -[render]; [|done].
  unfold with_visual. cbn -[render]. f_equal.
  apply render_twice. by eapply reachable_ok.
Qed.

End idempotence.

(** ** Claims about the click handler *)

Lemma find_node c r :
  NoDup (node <$> c) → r ∈ c → head (filter (λ r0, node r0 = node r) c) = Some r.
Proof.
  induction c as [|r0 c IH]; intros Hdup Hr; [by apply elem_of_nil in Hr|].
  rewrite fmap_cons in Hdup. apply NoDup_cons in Hdup as [Hr0 Hdup].
  apply elem_of_cons in Hr as [->|Hr].
  - by rewrite filter_cons_True.
  - rewrite filter_cons_False; [by apply IH|].
    intros Heq. apply Hr0. rewrite Heq. by apply list_elem_of_fmap_2.
Qed.

Lemma dimmed_cases ids :
  (ids = [] → dimmed ids = VNum 1) ∧ (ids ≠ [] → dimmed ids = VNum 0.5).
Proof.
  unfold dimmed. split.
  - by intros ->.
  - intros Hids. by destruct ids.
Qed.

Lemma fill_opacity_set v r :
  loose_eq_undefined v = false →
  attributes (rect_attr "fill-opacity" (λ _, v) r) !! "fill-opacity" = Some v.
Proof. intros Hv. unfold rect_attr. cbn [attributes]. by rewrite lookup_attr, decide_True, Hv. Qed.

(** The first statement of the continuation, bar by bar. *)
Lemma dim_all_lookup k ids c j r0 :
  c !! j = Some r0 →
  ∃ r1, dim_all k ids c !! j = Some r1
    ∧ node r1 = node r0 ∧ datum r1 = datum r0 ∧ onclick r1 = onclick r0
    ∧ attributes r1 !! "fill-opacity"
      = (if decide (node r0 ∈ then_bars k) then Some (dimmed ids)
         else attributes r0 !! "fill-opacity").
Proof.
  intros Hr. unfold dim_all, each. rewrite list_lookup_fmap, Hr.
  cbn [fmap option_fmap option_map]. eexists. split; [done|].
  destruct (decide (node r0 ∈ then_bars k)); [|done].
  repeat (split; [done|]). by apply fill_opacity_set.
Qed.

(** Both statements, bar by bar. *)
Lemma on_selected_lookup k ids c j r0 :
  c !! j = Some r0 →
  ∃ r', on_selected k ids c !! j = Some r'
    ∧ node r' = node r0 ∧ datum r' = datum r0 ∧ onclick r' = onclick r0
    ∧ attributes r' !! "fill-opacity"
      = (if decide (node r0 = then_this k) then Some (VNum 1)
         else if decide (node r0 ∈ then_bars k) then Some (dimmed ids)
         else attributes r0 !! "fill-opacity").
Proof.
  intros Hr. destruct (dim_all_lookup k ids c j r0 Hr) as (r1 & Hr1 & Hnode & Hdatum & Hclick & Hfill).
  unfold on_selected, highlight_clicked, each. rewrite list_lookup_fmap, Hr1.
  cbn [fmap option_fmap option_map]. eexists. split; [done|]. rewrite Hnode.
  destruct (decide (node r0 ∈ [then_this k])) as [Hin|Hin];
    rewrite list_elem_of_singleton in Hin.
  - rewrite decide_True by done. repeat (split; [done|]). by apply fill_opacity_set.
  - rewrite decide_False by done. done.
Qed.

Section selection.
Context {rt : Runtime} (host : IVisualHost).

(** A click on a bar of a well-formed container. *)
Lemma click_bar w r :
  container_ok (visual w) → r ∈ barContainer (visual w) →
  click w (node r)
  = {| visual := visual w;
       select_calls := select_calls w ++ [selectionID (datum r)];
       pending := pending w ++ [{| then_bars := node <$> barContainer (visual w);
                                   then_this := node r |}] |}.
Proof.
  intros [Hdup _ _ Hlis] Hr. unfold click.
  by rewrite (find_node _ _ Hdup Hr), (Hlis r Hr).
Qed.

(** A continuation waits until a result arrives for it: no other event
    takes it from the list. *)
Lemma pending_step w e k :
  k ∈ pending w →
  k ∈ pending (step host w e) ∨ ∃ i ids, e = Resolve i ids ∧ pending w !! i = Some k.
Proof.
  intros Hk. destruct e as [options|n|i ids]; cbn [step].
  - left. by destruct (update host (visual w) options).
  - left. unfold click. destruct (head _) as [r|]; [|done].
    destruct (onclick r); [|done]. cbn [pending]. apply elem_of_app. by left.
  - apply list_elem_of_lookup in Hk as [j Hj].
    destruct (decide (j = i)) as [->|Hne]; [right; by eauto|]. left.
    unfold resolve. destruct (pending w !! i) as [k'|] eqn:Hi; cbn [pending].
    2:{ by eapply list_elem_of_lookup_2. }
    destruct (decide (j < i)) as [Hlt|Hge].
    + apply (list_elem_of_lookup_2 _ j). by rewrite list_lookup_delete_lt.
    + destruct j as [|j]; [lia|].
      apply (list_elem_of_lookup_2 _ j). rewrite list_lookup_delete_ge by lia. done.
Qed.

(** C7, amended: a click on a bar asks the selection manager to select the
    identity of the data point bound to that bar, registers a continuation
    that holds the bars of the update that installed the listener, and
    changes nothing else; the continuation waits until its result arrives.
    When it does, whatever happened in between, the first statement of the
    continuation gives each of those bars that is still in the container the
    opacity 0.5 if the result is not empty and 1 if it is, and the second
    gives the clicked bar the opacity 1; a bar created since is left as it
    is.  If the container still holds the bars the listener was installed
    on, every bar but the clicked one ends with the former value. *)
Theorem click_dims_other_bars w r :
  reachable host w →
  r ∈ barContainer (visual w) →
  let bars := node <$> barContainer (visual w) in
  let k := {| then_bars := bars; then_this := node r |} in
  let w1 := click w (node r) in
  select_calls w1 = select_calls w ++ [selectionID (datum r)]
  ∧ pending w1 = pending w ++ [k]
  ∧ visual w1 = visual w
  ∧ (∀ w' e, k ∈ pending w' →
       k ∈ pending (step host w' e) ∨ ∃ i ids, e = Resolve i ids ∧ pending w' !! i = Some k)
  ∧ (∀ w' i ids, pending w' !! i = Some k →
       let c := barContainer (visual w') in
       let c' := barContainer (visual (resolve w' i ids)) in
       c' = highlight_clicked k (dim_all k ids c)
       ∧ (∀ j r0, c !! j = Some r0 →
            ∃ r1, dim_all k ids c !! j = Some r1
              ∧ attributes r1 !! "fill-opacity"
                = if decide (node r0 ∈ bars) then Some (dimmed ids)
                  else attributes r0 !! "fill-opacity")
       ∧ (∀ j r0, c !! j = Some r0 →
            ∃ r', c' !! j = Some r'
              ∧ node r' = node r0 ∧ datum r' = datum r0 ∧ onclick r' = onclick r0
              ∧ attributes r' !! "fill-opacity"
                = if decide (node r0 = node r) then Some (VNum 1)
                  else if decide (node r0 ∈ bars) then Some (dimmed ids)
                  else attributes r0 !! "fill-opacity")
       ∧ length c' = length c
       ∧ (ids = [] → dimmed ids = VNum 1)
       ∧ (ids ≠ [] → dimmed ids = VNum 0.5)
       ∧ pending (resolve w' i ids) = delete i (pending w')
       ∧ (node <$> c = bars →
            ∀ r', r' ∈ c' →
              attributes r' !! "fill-opacity"
              = Some (if decide (node r' = node r) then VNum 1 else dimmed ids))).
Proof.
  intros Hw Hr bars k w1. pose proof (reachable_ok host w Hw) as Hok.
  unfold w1. rewrite (click_bar w r Hok Hr). cbn [select_calls pending visual]. fold bars k.
  repeat (split; [done|]).
  split; [intros w' e; apply pending_step|].
  intros w' i ids Hk.
  set (c := barContainer (visual w')). set (c' := barContainer (visual (resolve w' i ids))).
  assert (Hc' : c' = on_selected k ids c).
  { unfold c', resolve. by rewrite Hk. }
  assert (Hpos : ∀ j r0, c !! j = Some r0 →
            ∃ r', c' !! j = Some r'
              ∧ node r' = node r0 ∧ datum r' = datum r0 ∧ onclick r' = onclick r0
              ∧ attributes r' !! "fill-opacity"
                = if decide (node r0 = node r) then Some (VNum 1)
                  else if decide (node r0 ∈ bars) then Some (dimmed ids)
                  else attributes r0 !! "fill-opacity").
  { intros j r0 Hr0. rewrite Hc'. apply (on_selected_lookup k ids c j r0 Hr0). }
  destruct (dimmed_cases ids) as [Hempty Hsome].
  split; [exact Hc'|]. split; [|split; [exact Hpos|split; [|split; [exact Hempty|split; [exact Hsome|split]]]]].
  - intros j r0 Hr0.
    destruct (dim_all_lookup k ids c j r0 Hr0) as (r1 & Hr1 & _ & _ & _ & Hfill). by exists r1.
  - rewrite Hc'. unfold on_selected, highlight_clicked, dim_all, each. by rewrite !length_fmap.
  - unfold resolve. by rewrite Hk.
  - intros Hsame r' Hr'. apply list_elem_of_lookup in Hr' as [j Hj].
    destruct (c !! j) as [r0|] eqn:Hr0.
    + destruct (Hpos j r0 Hr0) as (r'' & Hr'' & Hnode & _ & _ & Hfill).
      rewrite Hj in Hr''. injection Hr'' as <-. rewrite Hfill, Hnode.
      destruct (decide (node r0 = node r)); [done|].
      rewrite decide_True; [done|]. rewrite <- Hsame. apply list_elem_of_fmap_2.
      by eapply list_elem_of_lookup_2.
    + apply lookup_ge_None in Hr0. apply lookup_lt_Some in Hj.
      rewrite Hc' in Hj. unfold on_selected, highlight_clicked, dim_all, each in Hj.
      rewrite !length_fmap in Hj. lia.
Qed.

End selection.

(** ** The claims on the sample data *)

Lemma four_bars_reachable : reachable sample_host four_bars.
Proof. apply reachable_step, reachable_new. Defined.

Lemma five_bars_reachable : reachable sample_host five_bars.
Proof. apply reachable_step, reachable_new. Defined.

(** Five bars reconciled with four data points: four bars stay, laid out
    over the 400 units of the surface, and the fifth is removed. *)
Lemma bars_reconciled_witness :
  length (barContainer (render (visual five_bars) sample_viewModel sample_viewport)) = 4
  ∧ (∀ i r, barContainer (visual five_bars) !! i = Some r → 4 ≤ i →
       node r ∉ node <$> barContainer (render (visual five_bars) sample_viewModel sample_viewport))
  ∧ ordinal_domain (xScale sample_viewModel sample_viewport)
    = [VStr "China"; VStr "USA"; VStr "India"; VStr "Germany"]
  ∧ (λ r, (attributes r !! "x", attributes r !! "width"))
      <$> barContainer (render (visual five_bars) sample_viewModel sample_viewport)
    = [(Some (VNum 19), Some (VNum 84)); (Some (VNum 112), Some (VNum 84));
       (Some (VNum 205), Some (VNum 84)); (Some (VNum 298), Some (VNum 84))].
Proof.
  pose proof (bars_reconciled sample_host five_bars sample_viewModel sample_viewport
                five_bars_reachable) as H.
  cbv zeta in H. destruct H as (Hlen & _ & Hgone & _ & _ & Hx).
  split; [exact Hlen|]. split; [exact Hgone|]. split; [by rewrite Hx|].
  vm_compute. reflexivity.
Defined.

Lemma render_idempotent_witness :
  render (render (visual five_bars) sample_viewModel sample_viewport)
    sample_viewModel sample_viewport
  = render (visual five_bars) sample_viewModel sample_viewport.
Proof.
  exact (render_idempotent sample_host five_bars sample_viewModel sample_viewport
           five_bars_reachable).
Defined.

Lemma india_bar_drawn : india_bar ∈ barContainer (visual four_bars).
Proof. apply (list_elem_of_lookup_2 _ 2). vm_compute. reflexivity. Defined.

(** A click on the bar of "India", answered with a selection of one
    identity: the request names that bar's identity, and afterwards the
    clicked bar is opaque and the three others are dimmed. *)
Lemma click_dims_other_bars_witness :
  select_calls (click four_bars (node india_bar)) = [india_id]
  ∧ (λ r, attributes r !! "fill-opacity")
      <$> barContainer (visual (resolve (click four_bars (node india_bar)) 0 [india_id]))
    = [Some (VNum 0.5); Some (VNum 0.5); Some (VNum 1); Some (VNum 0.5)].
Proof.
  pose proof (click_dims_other_bars sample_host four_bars india_bar
                four_bars_reachable india_bar_drawn) as H.
  cbv zeta in H. destruct H as (Hcall & _ & _ & _ & Hresult).
  split; [exact Hcall|].
  destruct (Hresult (click four_bars (node india_bar)) 0 [india_id] eq_refl) as (-> & _).
  vm_compute. reflexivity.
Defined.

(** C7, as worded, fails: three bars, a click on the first, then an update
    that brings a fourth bar before the result of the click arrives.  The
    result is not empty, and the fourth bar, which the listener of the
    clicked bar never held, is not given the opacity 0.5: it has none. *)
Lemma late_result_skips_new_bar :
  late_result
  = step sample_host
      (step sample_host
         (step sample_host (step sample_host World_new (Update stale_options)) (Click 0))
         (Update (sample_options VUndefined)))
      (Resolve 0 [createSelectionId sample_host uneven_category 0])
  ∧ length (barContainer (visual late_result)) = 4
  ∧ (λ r, attributes r !! "fill-opacity") <$> barContainer (visual late_result)
    = [Some (VNum 1); Some (VNum 0.5); Some (VNum 0.5); None]
  ∧ ∃ r, barContainer (visual late_result) !! 3 = Some r
         ∧ attributes r !! "fill-opacity" = None
         ∧ attributes r !! "fill-opacity" ≠ Some (VNum 0.5).
Proof.
  split; [reflexivity|].
  split; [vm_compute; reflexivity|]. split; [vm_compute; reflexivity|].
  eexists. split; [vm_compute; reflexivity|]. split; [vm_compute; reflexivity|].
  vm_compute. discriminate.
Qed.

(** The scenario of the specification: four bars on a 400 by 300 surface
    with the axis disabled. *)
Example sample_scenario :
  (λ r, (attributes r !! "x", attributes r !! "width", attributes r !! "height"))
    <$> barContainer (visual four_bars)
  = [(Some (VNum 19), Some (VNum 84), Some (VNum (300 - (300 * (1 - 10 / 11) + 0 * (10 / 11)))));
     (Some (VNum 112), Some (VNum 84), Some (VNum (300 - (300 * (1 - 8 / 11) + 0 * (8 / 11)))));
     (Some (VNum 205), Some (VNum 84), Some (VNum 300));
     (Some (VNum 298), Some (VNum 84), Some (VNum (300 - (300 * (1 - 5 / 11) + 0 * (5 / 11)))))].
Proof. vm_compute. reflexivity. Qed.

(** The scenario of the specification without data views: no bar, and the
    property pane reads the default setting. *)
Example no_data_scenario :
  let w := step sample_host World_new
             (Update {| dataViews := None; viewport := sample_viewport |}) in
  barContainer (visual w) = []
  ∧ enumerateObjectInstances (visual w) "enableAxis"
    = Normal [{| instance_objectName := "enableAxis";
                 instance_properties := {[ "show" := VBool false ]} |}]
  ∧ enumerateObjectInstances (visual w) "other" = Normal [].
Proof. repeat split. Qed.

(** ** Further properties of the data transformation *)

Lemma visualTransform_empty_witness :
  visualTransform
    {| dataViews := Some [data_view (axis_setting (VBool true)) None (Some [sample_values])];
       viewport := sample_viewport |} sample_host
  = Normal dataInfo.
Proof.
  apply visualTransform_empty. right. right. right. left. reflexivity.
Defined.

Section further_transformation.
Context {rt : Runtime}.

(** X2: [visualTransform] throws exactly when the primary view has a categorical
    section whose list of category columns is empty, or whose first category
    column has a source while the list of value columns is empty. *)
Theorem visualTransform_throws_iff options host :
  visualTransform options host = Throw TypeError ↔
  ∃ dvs dv cat,
    dataViews options = Some dvs ∧ dvs !! 0 = Some dv ∧ categorical dv = Some cat ∧
    (categories cat = Some []
     ∨ ∃ c cs src, categories cat = Some (c :: cs) ∧ source c = Some src
                   ∧ values cat = Some []).
Proof.
  unfold visualTransform, no_data, source0, category0, categories0, values0,
    categorical0, dataView0.
  destruct options as [[dvs|] vp]; simpl; [|naive_solver].
  destruct dvs as [|dv dvs]; simpl; [naive_solver|].
  destruct dv as [md [cat|]]; simpl; [|naive_solver].
  destruct cat as [[cats|] vals]; simpl; [|naive_solver].
  destruct cats as [|c cs]; simpl; [naive_solver|].
  destruct c as [[src|] cvs]; simpl; [|naive_solver].
  destruct vals as [vals|]; simpl; [|naive_solver].
  rewrite getOptionValue_setting. simpl.
  destruct vals as [|v vs]; simpl; naive_solver.
Qed.

(** X4: The earlier stage of [visualTransform] returns what the final one does,
    less the colours, the identities and the settings, and throws when it
    throws. *)
Theorem visualTransform_extends_earlier options host :
  DataOnly.visualTransform options host = without_settings <$> visualTransform options host.
Proof.
  unfold visualTransform, DataOnly.visualTransform, no_data, source0, category0,
    categories0, values0, categorical0, dataView0.
  destruct options as [[dvs|] vp]; simpl; [|done].
  destruct dvs as [|dv dvs]; simpl; [done|].
  destruct dv as [md [cat|]]; simpl; [|done].
  destruct cat as [[cats|] vals]; simpl; [|done].
  destruct cats as [|c cs]; simpl; [done|].
  destruct c as [[src|] cvs]; simpl; [|done].
  destruct vals as [vals|]; simpl; [|done].
  rewrite getOptionValue_setting. simpl.
  destruct vals as [|v vs]; simpl; [done|].
  unfold without_settings. simpl. f_equal. f_equal.
  rewrite <- list_fmap_compose. by apply list_fmap_ext.
Qed.

End further_transformation.

(** ** The property pane *)

Section pane.
Context {rt : Runtime} (host : IVisualHost).

Lemma step_chartSettings w e :
  chartSettings (visual (step host w e))
  = match e with
    | Update options =>
        match visualTransform options host with
        | Normal vm => Some (settings vm)
        | Throw _ => chartSettings (visual w)
        end
    | _ => chartSettings (visual w)
    end.
Proof.
  destruct e as [options|n|i ids]; cbn [step].
  - unfold update. by destruct (visualTransform options host).
  - unfold click. destruct (head _) as [r|]; [|done]. by destruct (onclick r).
  - unfold resolve. by destruct (pending w !! i).
Qed.

Lemma foldl_chartSettings events w :
  chartSettings (visual (foldl (step host) w events))
  = last_settings host events (chartSettings (visual w)).
Proof.
  revert w. induction events as [|e events IH]; intros w; [done|].
  cbn [foldl]. rewrite IH, step_chartSettings.
  destruct e as [options|n|i ids]; cbn [last_settings]; [|done..].
  by destruct (visualTransform options host).
Qed.

Lemma last_settings_None events current :
  last_settings host events current = None
  ↔ current = None ∧ Forall (λ e, succeeds host e = false) events.
Proof.
  revert current. induction events as [|e events IH]; intros current; cbn [last_settings].
  - split; [by auto|by intros [? _]].
  - destruct e as [options|n|i ids];
      [destruct (visualTransform options host) eqn:Hvm|..];
      rewrite IH, Forall_cons; cbn [succeeds]; rewrite ?Hvm;
      split; intros H; intuition congruence.
Qed.

(** X5: After any history of updates, clicks and selection results,
    [enumerateObjectInstances] answers the group [enableAxis] with the
    setting of the last update that succeeded, throws a TypeError when no
    update has succeeded yet, and answers every other name with the empty
    list. *)
Theorem enumerateObjectInstances_last_update events :
  enumerateObjectInstances (visual (run host events)) "enableAxis"
  = match last_settings host events None with
    | Some s => Normal [{| instance_objectName := "enableAxis";
                           instance_properties := {[ "show" := show (enableAxis s) ]} |}]
    | None => Throw TypeError
    end
  ∧ (enumerateObjectInstances (visual (run host events)) "enableAxis" = Throw TypeError
     ↔ Forall (λ e, succeeds host e = false) events)
  ∧ (∀ name, name ≠ "enableAxis" →
       enumerateObjectInstances (visual (run host events)) name = Normal []).
Proof.
  assert (Hsettings : chartSettings (visual (run host events))
                      = last_settings host events None)
    by apply foldl_chartSettings.
  unfold enumerateObjectInstances. rewrite Hsettings. cbn [String.eqb Ascii.eqb Bool.eqb].
  split; [by destruct (last_settings host events None)|]. split.
  - pose proof (last_settings_None events None) as Hnone.
    destruct (last_settings host events None) as [s|]; split; intros H.
    + discriminate.
    + discriminate (proj2 Hnone (conj eq_refl H)).
    + by apply Hnone.
    + reflexivity.
  - intros name Hname. apply String.eqb_neq in Hname. by rewrite Hname.
Qed.

(** X6: The setting of the report comes back through the property pane: after
    an update with a table that has its two columns,
    [enumerateObjectInstances] returns for [enableAxis.show] the value
    stored under [enableAxis.show] in the metadata objects of the view,
    whatever else they store, when that value is neither [null] nor
    [undefined], and [false] when no such value is stored. *)
Theorem settings_round_trip this options column dataValue :
  no_data options = Normal false →
  category0 options = Normal (Some column) →
  dataValue0 options = Normal (Some dataValue) →
  ∃ dv this',
    dataView0 options = Normal (Some dv) ∧
    update host this options = Normal this' ∧
    (∀ m o v,
       objects (metadata dv) = VObj m → m !! "enableAxis" = Some (VObj o) →
       o !! "show" = Some v → loose_eq_undefined v = false →
       enumerateObjectInstances this' "enableAxis"
       = Normal [{| instance_objectName := "enableAxis";
                    instance_properties := {[ "show" := v ]} |}]) ∧
    ((∀ m o v,
        objects (metadata dv) = VObj m → m !! "enableAxis" = Some (VObj o) →
        o !! "show" = Some v → loose_eq_undefined v = true) →
       enumerateObjectInstances this' "enableAxis"
       = Normal [{| instance_objectName := "enableAxis";
                    instance_properties := {[ "show" := VBool false ]} |}]) ∧
    enumerateObjectInstances this' "enableAxis"
    = Normal [{| instance_objectName := "enableAxis";
                 instance_properties :=
                   {[ "show" := resolved_option (objects (metadata dv)) "enableAxis" "show"
                                  (VBool false) ]} |}].
Proof.
  intros Hguard Hc Hv.
  destruct (visualTransform_data options host _ _ Hguard Hc Hv) as (dv & Hdv & Hvm).
  exists dv. eexists. split; [done|]. unfold update. rewrite Hvm. split; [reflexivity|].
  unfold enumerateObjectInstances.
  cbn [String.eqb Ascii.eqb Bool.eqb mbind completion_bind].
  rewrite render_chartSettings. cbn [field settings enableAxis show id mbind completion_bind].
  split; [|split; [|done]].
  - intros m o v -> Hobject Hshow Hnull. unfold resolved_option.
    rewrite Hobject, Hshow. by destruct v.
  - intros Hnone. do 3 f_equal. unfold resolved_option.
    destruct (objects (metadata dv)) as [| | | | |m|]; try reflexivity.
    destruct (m !! "enableAxis") as [[| | | | |o|]|] eqn:Hobject; try reflexivity.
    destruct (o !! "show") as [v|] eqn:Hshow; [|reflexivity].
    specialize (Hnone m o v eq_refl Hobject Hshow). by destruct v.
Qed.

End pane.

(** The metadata of a report that stores more than the setting of the axis. *)
Lemma settings_round_trip_witness :
  let stored := VObj {[ "enableAxis" := VObj {[ "show" := VBool true; "fill" := VStr "#000000" ]};
                        "legend" := VObj {[ "show" := VBool false ]} ]} in
  ∃ this',
    update sample_host Visual_new (sample_options stored) = Normal this' ∧
    enumerateObjectInstances this' "enableAxis"
    = Normal [{| instance_objectName := "enableAxis";
                 instance_properties := {[ "show" := VBool true ]} |}].
Proof.
  intros stored.
  destruct (settings_round_trip sample_host Visual_new (sample_options stored)
              sample_category sample_values eq_refl eq_refl eq_refl)
    as (dv & this' & Hdv & Hupdate & Hstored & _).
  exists this'. split; [exact Hupdate|].
  injection Hdv as <-.
  apply (Hstored _ {[ "show" := VBool true; "fill" := VStr "#000000" ]} (VBool true) eq_refl);
    reflexivity.
Defined.

(** ** What holds in every state of the visual *)

Lemma fill_opacity_other v r name :
  name ≠ "fill-opacity" →
  attributes (rect_attr "fill-opacity" (λ _, v) r) !! name = attributes r !! name.
Proof.
  intros Hname. unfold rect_attr. cbn [attributes].
  rewrite lookup_attr, decide_False by congruence. done.
Qed.

Section states.
Context {rt : Runtime} (host : IVisualHost).

(** X7: In every state the visual can reach, the bars are distinct elements of
    class [bar], and each carries the click listener of the last update,
    whose selection is exactly the bars now in the container. *)
Theorem reachable_bars w :
  reachable host w →
  NoDup (node <$> barContainer (visual w))
  ∧ ∀ r, r ∈ barContainer (visual w) →
      attributes r !! "class" = Some (VStr "bar")
      ∧ onclick r = Some {| listener_bars := node <$> barContainer (visual w) |}
      ∧ node r < next_node (visual w).
Proof.
  intros [Hdup Hknown Hbars Hlis]%reachable_ok. split; [done|].
  intros r Hr. split; [|by auto].
  specialize (Hbars r Hr). unfold is_bar in Hbars.
  destruct (attributes r !! "class") as [[| | | |s| |]|]; try done.
  by apply String.eqb_eq in Hbars as ->.
Qed.

(** X8: An update with a table in which the guard finds no data removes every
    bar and every tick, and resets the persisted setting to the default,
    whatever the metadata of the view says; what the selection manager
    holds is left alone. *)
Theorem absent_data_clears_chart w options :
  reachable host w →
  no_data options = Normal true →
  let w' := step host w (Update options) in
  barContainer (visual w') = []
  ∧ axis_ticks (xAxis (visual w')) = []
  ∧ chartSettings (visual w') = Some defaultSettings
  ∧ enumerateObjectInstances (visual w') "enableAxis"
    = Normal [{| instance_objectName := "enableAxis";
                 instance_properties := {[ "show" := VBool false ]} |}]
  ∧ svg (visual w') !! "height" = Some (VNum (height (viewport options)))
  ∧ pending w' = pending w
  ∧ select_calls w' = select_calls w.
Proof.
  intros Hw Hguard w'. unfold w'. cbn [step]. unfold update.
  rewrite (visualTransform_no_data _ _ Hguard).
  cbn [mbind completion_bind with_visual visual pending select_calls].
  split.
  { rewrite render_container by (by eapply reachable_ok).
    assert (Hnone : joined (visual w) (dataPoints dataInfo) = [])
      by (apply nil_length_inv; by rewrite joined_length).
    by rewrite Hnone. }
  unfold enumerateObjectInstances. rewrite render_chartSettings, render_xAxis, render_svg.
  repeat split. unfold attr. simpl. by rewrite lookup_insert_eq.
Qed.

(** X9: The result of a selection request changes nothing but [fill-opacity]:
    the surface, the axis, the setting, the elements of the container,
    their data, their listeners and every other attribute stay as they
    were, and a bar that is neither in the selection the listener closed
    over nor the clicked element is not touched at all. *)
Theorem resolve_changes_opacity_only w i ids :
  let c := barContainer (visual w) in
  let c' := barContainer (visual (resolve w i ids)) in
  svg (visual (resolve w i ids)) = svg (visual w)
  ∧ xAxis (visual (resolve w i ids)) = xAxis (visual w)
  ∧ chartSettings (visual (resolve w i ids)) = chartSettings (visual w)
  ∧ select_calls (resolve w i ids) = select_calls w
  ∧ node <$> c' = node <$> c
  ∧ datum <$> c' = datum <$> c
  ∧ onclick <$> c' = onclick <$> c
  ∧ (∀ j r r' name, c !! j = Some r → c' !! j = Some r' → name ≠ "fill-opacity" →
       attributes r' !! name = attributes r !! name)
  ∧ (∀ k j r, pending w !! i = Some k → c !! j = Some r →
       node r ∉ then_bars k → node r ≠ then_this k → c' !! j = Some r).
Proof.
  intros c c'. unfold c', c, resolve.
  destruct (pending w !! i) as [k|]; cbn [visual with_container svg xAxis chartSettings
    select_calls barContainer].
  2:{ repeat (split; [done|]). split; [|done].
      intros j r r' name Hr. rewrite Hr. by intros [= <-]. }
  repeat (split; [done|]).
  set (g := λ r, let r1 := if decide (node r ∈ then_bars k)
                           then rect_attr "fill-opacity" (λ _, dimmed ids) r else r in
                 if decide (node r1 ∈ [then_this k])
                 then rect_attr "fill-opacity" (λ _, VNum 1) r1 else r1).
  assert (Hg : on_selected k ids (barContainer (visual w)) = g <$> barContainer (visual w)).
  { unfold on_selected, highlight_clicked, dim_all, each. by rewrite <- list_fmap_compose. }
  rewrite Hg, <- !list_fmap_compose.
  split; [apply list_fmap_ext; intros j r _; unfold g; simpl; by repeat case_decide|].
  split; [apply list_fmap_ext; intros j r _; unfold g; simpl; by repeat case_decide|].
  split; [apply list_fmap_ext; intros j r _; unfold g; simpl; by repeat case_decide|].
  split.
  - intros j r r' name Hr. rewrite list_lookup_fmap, Hr. intros [= <-] Hname.
    unfold g. cbn zeta.
    destruct (decide (node r ∈ then_bars k)); destruct (decide (_ ∈ [then_this k]));
      rewrite ?fill_opacity_other by done; done.
  - intros k' j r [= <-] Hr Hbars Hthis. rewrite list_lookup_fmap, Hr. cbn [fmap option_fmap option_map].
    f_equal. unfold g. cbn zeta.
    destruct (decide (node r ∈ then_bars k)) as [|_]; [done|].
    rewrite decide_False; [done|]. by rewrite list_elem_of_singleton.
Qed.

(** X10: [update] never writes [fill-opacity]: a bar that stays keeps the opacity
    it had, whatever data point it is now bound to, and a bar that is
    created has none. *)
Theorem update_keeps_opacity w vm vp :
  reachable host w →
  ∀ i r', barContainer (render (visual w) vm vp) !! i = Some r' →
    attributes r' !! "fill-opacity"
    = match barContainer (visual w) !! i with
      | Some r => attributes r !! "fill-opacity"
      | None => None
      end.
Proof.
  intros Hok%reachable_ok i r'. rewrite render_container by done.
  rewrite list_lookup_fmap.
  destruct (joined (visual w) (dataPoints vm) !! i) as [r0|] eqn:Hr0; [|done].
  intros [= <-].
  destruct (dataPoints vm !! i) as [d|] eqn:Hd.
  2:{ apply lookup_ge_None in Hd. apply lookup_lt_Some in Hr0.
      rewrite joined_length in Hr0. lia. }
  destruct (paint_attributes (visual w) vm vp r0) as (_ & _ & _ & _ & _ & Hrest).
  rewrite Hrest by set_solver.
  destruct (barContainer (visual w) !! i) as [r|] eqn:Hr.
  - rewrite (joined_lookup_retained _ _ _ _ _ Hr Hd) in Hr0. by injection Hr0 as <-.
  - rewrite (joined_lookup_created _ _ _ _ Hr Hd) in Hr0. injection Hr0 as <-.
    unfold classed_bar, rect_attr. cbn [attributes]. by rewrite lookup_attr.
Qed.

End states.

(** ** Clicks after updates, and results in sequence *)

Lemma attr_override name v1 v2 a : attr name v2 (attr name v1 a) = attr name v2 a.
Proof. apply map_eq. intros k. rewrite !lookup_attr. by case_decide. Qed.

Lemma rect_attr_override name v1 v2 r :
  rect_attr name (λ _, v2) (rect_attr name (λ _, v1) r) = rect_attr name (λ _, v2) r.
Proof. apply Rect_eq; try reflexivity. unfold rect_attr. cbn [attributes]. apply attr_override. Qed.

Section clicks.
Context {rt : Runtime} (host : IVisualHost).

(** X11: After an update with a table that has its two columns, the container
    holds one bar per row, and a click on the bar at position [i] asks the
    selection manager for the identity of row [i] of the category column. *)
Theorem click_after_update w options column dataValue i :
  reachable host w →
  no_data options = Normal false →
  category0 options = Normal (Some column) →
  dataValue0 options = Normal (Some dataValue) →
  i < length (category_values column) `max` length (column_values dataValue) →
  let w1 := step host w (Update options) in
  length (barContainer (visual w1))
  = length (category_values column) `max` length (column_values dataValue)
  ∧ ∃ r, barContainer (visual w1) !! i = Some r
         ∧ select_calls (click w1 (node r))
           = select_calls w ++ [createSelectionId host column i].
Proof.
  intros Hw Hguard Hc Hv Hi w1.
  assert (Hw1 : reachable host w1) by (by apply reachable_step).
  apply reachable_ok in Hw1 as Hok1. apply reachable_ok in Hw as Hok.
  destruct (visualTransform_data options host _ _ Hguard Hc Hv) as (dv & _ & Hvm).
  revert Hok1. unfold w1. cbn [step]. unfold update. rewrite Hvm.
  cbn [mbind completion_bind with_visual visual select_calls pending]. intros Hok1.
  set (vm := {| dataPoints := _ |}) in *.
  assert (Hlen : length (dataPoints vm)
                 = length (category_values column) `max` length (column_values dataValue))
    by (unfold vm; cbn [dataPoints]; by rewrite length_fmap, length_seq).
  assert (Hd : ∃ d, dataPoints vm !! i = Some d
                    ∧ selectionID d = createSelectionId host column i).
  { unfold vm. cbn [dataPoints]. eexists.
    rewrite list_lookup_fmap, lookup_seq_lt by done. split; reflexivity. }
  destruct Hd as (d & Hd & Hid).
  rewrite (render_container _ _ _ Hok), length_fmap, joined_length. split; [done|].
  assert (Hr : ∃ r0, joined (visual w) (dataPoints vm) !! i = Some r0 ∧ datum r0 = d).
  { destruct (barContainer (visual w) !! i) as [r|] eqn:Hr.
    - rewrite (joined_lookup_retained _ _ _ _ _ Hr Hd). by eexists.
    - rewrite (joined_lookup_created _ _ _ _ Hr Hd). by eexists. }
  destruct Hr as (r0 & Hr0 & Hdatum).
  exists (paint (visual w) vm (viewport options) r0).
  rewrite list_lookup_fmap, Hr0. split; [done|].
  rewrite (click_bar (with_visual w (render (visual w) vm (viewport options)))); [| done |].
  - cbn [select_calls with_visual]. by rewrite paint_datum, Hdatum, Hid.
  - cbn [visual with_visual]. rewrite render_container by done.
    apply list_elem_of_fmap_2. by eapply list_elem_of_lookup_2.
Qed.

Lemma resolve_at w l1 l2 k ids :
  pending w = l1 ++ k :: l2 →
  resolve w (length l1) ids
  = {| visual := with_container (visual w) (on_selected k ids (barContainer (visual w)));
       select_calls := select_calls w;
       pending := l1 ++ l2 |}.
Proof.
  intros Hp. unfold resolve. rewrite Hp, list_lookup_middle by done. by rewrite delete_middle.
Qed.

Lemma on_selected_override k1 k2 ids1 ids2 c :
  (∀ r, r ∈ c → node r ∈ then_bars k2) →
  on_selected k2 ids2 (on_selected k1 ids1 c) = on_selected k2 ids2 c.
Proof.
  intros Hall. unfold on_selected, highlight_clicked, dim_all, each.
  rewrite <- !list_fmap_compose. apply list_fmap_ext. intros j r Hr%list_elem_of_lookup_2.
  specialize (Hall r Hr). cbn [compose].
  destruct (decide (node r ∈ then_bars k1)); destruct (decide (_ ∈ [then_this k1]));
    cbn [node rect_attr];
    rewrite !(decide_True (P := node r ∈ then_bars k2)) by done;
    by rewrite ?rect_attr_override.
Qed.

(** X12: The result of a click made on the bars now in the container decides
    the opacities alone.  If the continuation that runs last holds every bar
    of the container, as the continuation of every click since the last
    update does, the container ends as if no earlier continuation had run,
    whatever bars that one held. *)
Theorem last_result_decides w i j k1 k2 ids1 ids2 :
  pending w !! i = Some k1 →
  pending (resolve w i ids1) !! j = Some k2 →
  (∀ r, r ∈ barContainer (visual w) → node r ∈ then_bars k2) →
  barContainer (visual (resolve (resolve w i ids1) j ids2))
  = on_selected k2 ids2 (barContainer (visual w))
  ∧ (∀ r, r ∈ barContainer (visual (resolve (resolve w i ids1) j ids2)) →
       attributes r !! "fill-opacity"
       = Some (if decide (node r = then_this k2) then VNum 1 else dimmed ids2))
  ∧ pending (resolve (resolve w i ids1) j ids2) = delete j (delete i (pending w))
  ∧ (∀ w0 r, reachable host w0 → r ∈ barContainer (visual w0) →
       ∃ k, pending (click w0 (node r)) = pending w0 ++ [k]
            ∧ then_this k = node r
            ∧ ∀ r', r' ∈ barContainer (visual (click w0 (node r))) → node r' ∈ then_bars k).
Proof.
  intros H1 H2 Hall.
  assert (Hc : barContainer (visual (resolve (resolve w i ids1) j ids2))
               = on_selected k2 ids2 (barContainer (visual w))).
  { unfold resolve at 1. rewrite H2. cbn [visual with_container barContainer].
    unfold resolve. rewrite H1. cbn [visual with_container barContainer].
    by apply on_selected_override. }
  split; [exact Hc|]. split; [|split].
  - intros r. rewrite Hc. intros [n Hn]%list_elem_of_lookup.
    destruct (barContainer (visual w) !! n) as [r0|] eqn:Hr0.
    + destruct (on_selected_lookup k2 ids2 _ n r0 Hr0) as (r' & Hr' & Hnode & _ & _ & Hfill).
      rewrite Hn in Hr'. injection Hr' as <-. rewrite Hfill, Hnode.
      destruct (decide (node r0 = then_this k2)); [done|].
      rewrite decide_True; [done|]. apply Hall. by eapply list_elem_of_lookup_2.
    + apply lookup_ge_None in Hr0. apply lookup_lt_Some in Hn.
      unfold on_selected, highlight_clicked, dim_all, each in Hn.
      rewrite !length_fmap in Hn. lia.
  - unfold resolve at 1. rewrite H2. cbn [pending]. unfold resolve. by rewrite H1.
  - intros w0 r Hok%reachable_ok Hr. rewrite (click_bar w0 r Hok Hr).
    eexists. split; [reflexivity|]. split; [reflexivity|].
    intros r' Hr'. by apply list_elem_of_fmap_2.
Qed.

End clicks.

(** ** The ticks of the axis *)

Section ticks.
Context {rt : Runtime}.

(** X13: The axis drawn by [update] has one tick per position of the category
    scale, among its distinct categories in the order of first occurrence:
    no more ticks than data points, no two ticks with the same label or at
    the same position of the scale, a tick at the position of the category
    of every data point, and every tick is the category of some data point,
    placed where the axis component puts it. *)
Theorem ticks_cover_categories this vm vp :
  let x := xScale vm vp in
  let ticks := axis_ticks (xAxis (render this vm vp)) in
  length ticks ≤ length (dataPoints vm)
  ∧ NoDup (to_string ∘ tick_datum <$> ticks)
  ∧ NoDup (tick_key x ∘ tick_datum <$> ticks)
  ∧ (∀ d, d ∈ dataPoints vm →
       ∃ c, c ∈ ordinal_domain x ∧ to_string c = to_string (category d)
            ∧ tick_key x c ∈ (tick_key x ∘ tick_datum <$> ticks))
  ∧ (∀ t, t ∈ ticks →
       (∃ d, d ∈ dataPoints vm ∧ tick_datum t = category d)
       ∧ tick_at t = tick_offset x (tick_datum t))
  ∧ (∀ c, tick_key x c = number_to_string (band x c)).
Proof.
  intros x ticks.
  set (u := unique_from [] (category <$> dataPoints vm)).
  set (kept := unique_by (tick_key x) [] u).
  set (tick := λ c, {| tick_datum := c; tick_at := tick_offset x c |}).
  assert (Hticks : ticks = tick <$> kept) by reflexivity.
  assert (Hdata : tick_datum <$> (tick <$> kept) = kept).
  { rewrite <- list_fmap_compose. rewrite <- (list_fmap_id kept) at 2. by apply list_fmap_ext. }
  assert (Hsub : sublist kept u) by apply unique_by_sublist.
  rewrite Hticks, !list_fmap_compose, Hdata.
  split; [|split; [|split; [|split; [|split; [|done]]]]].
  - rewrite length_fmap. etransitivity; [apply unique_by_length|].
    etransitivity; [apply unique_by_length|]. by rewrite length_fmap.
  - eapply sublist_NoDup;
      [apply (unique_by_keys to_string [] (category <$> dataPoints vm))|].
    apply fmap_sublist. exact Hsub.
  - apply unique_by_keys.
  - intros d Hd.
    destruct (unique_by_covers to_string [] (category <$> dataPoints vm) (category d))
      as [Hin|Hin]; [by apply list_elem_of_fmap_2|by apply elem_of_nil in Hin|].
    apply list_elem_of_fmap in Hin as (c & Hkey & Hc). exists c.
    split; [exact Hc|]. split; [done|].
    destruct (unique_by_covers (tick_key x) [] u c Hc) as [Hin|Hin];
      [by apply elem_of_nil in Hin|done].
  - intros t (c & -> & Hc)%list_elem_of_fmap. split; [|done].
    apply unique_by_sub in Hc as [Hc _].
    apply unique_by_sub in Hc as [(d & -> & Hd)%list_elem_of_fmap _]. by exists d.
Qed.

End ticks.

(** On a surface of width 3 the four categories fall on one position, and
    the axis has a single tick, that of the first category. *)
Example narrow_surface_single_tick :
  let x := xScale sample_viewModel narrow_viewport in
  band x <$> ordinal_domain x = [2; 2; 2; 2]%float
  ∧ tick_datum <$> axis_ticks (xAxis (render Visual_new sample_viewModel narrow_viewport))
    = [VStr "China"].
Proof. split; vm_compute; reflexivity. Qed.

(** ** The further properties on the sample data *)

Lemma india_clicked_reachable : reachable sample_host india_clicked.
Proof. apply reachable_step, reachable_step, four_bars_reachable. Defined.

Lemma china_bar_drawn : china_bar ∈ barContainer (visual four_bars).
Proof. apply (list_elem_of_lookup_2 _ 0). vm_compute. reflexivity. Defined.

Lemma reachable_bars_witness :
  NoDup (node <$> barContainer (visual four_bars))
  ∧ ∀ r, r ∈ barContainer (visual four_bars) →
      attributes r !! "class" = Some (VStr "bar")
      ∧ onclick r = Some {| listener_bars := node <$> barContainer (visual four_bars) |}
      ∧ node r < next_node (visual four_bars).
Proof. exact (reachable_bars sample_host four_bars four_bars_reachable). Defined.

Lemma absent_data_clears_chart_witness :
  barContainer (visual (step sample_host four_bars (Update absent_options))) = []
  ∧ enumerateObjectInstances (visual (step sample_host four_bars (Update absent_options)))
      "enableAxis"
    = Normal [{| instance_objectName := "enableAxis";
                 instance_properties := {[ "show" := VBool false ]} |}].
Proof.
  pose proof (absent_data_clears_chart sample_host four_bars absent_options
                four_bars_reachable eq_refl) as H.
  cbv zeta in H. destruct H as (Hbars & _ & _ & Hpane & _).
  split; [exact Hbars | exact Hpane].
Defined.

Lemma update_keeps_opacity_witness :
  (λ r, attributes r !! "fill-opacity")
    <$> barContainer (render (visual india_clicked) sample_viewModel sample_viewport)
  = [Some (VNum 0.5); Some (VNum 0.5); Some (VNum 1); Some (VNum 0.5)].
Proof.
  assert (H := update_keeps_opacity sample_host india_clicked sample_viewModel sample_viewport
                 india_clicked_reachable).
  apply list_eq. intros i. rewrite list_lookup_fmap.
  destruct (barContainer (render (visual india_clicked) sample_viewModel sample_viewport) !! i)
    as [r'|] eqn:Hr'.
  - cbn [fmap option_fmap option_map]. rewrite (H i r' Hr').
    apply lookup_lt_Some in Hr'.
    assert (Hlen : length (barContainer
                     (render (visual india_clicked) sample_viewModel sample_viewport)) = 4)
      by (vm_compute; reflexivity).
    rewrite Hlen in Hr'.
    destruct i as [|[|[|[|i]]]]; try lia; vm_compute; reflexivity.
  - apply lookup_ge_None in Hr'.
    assert (Hlen : length (barContainer
                     (render (visual india_clicked) sample_viewModel sample_viewport)) = 4)
      by (vm_compute; reflexivity).
    rewrite Hlen in Hr'.
    destruct i as [|[|[|[|i]]]]; try lia; reflexivity.
Defined.

Lemma click_after_update_witness :
  ∃ r, barContainer (visual (step sample_host five_bars (Update (sample_options VUndefined)))) !! 3
       = Some r
     ∧ select_calls (click (step sample_host five_bars (Update (sample_options VUndefined)))
                       (node r))
       = [createSelectionId sample_host sample_category 3].
Proof.
  pose proof (click_after_update sample_host five_bars (sample_options VUndefined)
                sample_category sample_values 3 five_bars_reachable eq_refl eq_refl eq_refl) as H.
  cbv zeta in H. destruct H as (_ & r & Hr & Hcall); [simpl; lia|].
  exists r. split; [exact Hr | exact Hcall].
Defined.

(** Two clicks on the four bars; the result of the first says one bar is
    selected, the result of the second, which arrives last, says none is. *)
Lemma last_result_decides_witness :
  (λ r, attributes r !! "fill-opacity")
    <$> barContainer (visual (resolve (resolve (click (click four_bars (node india_bar))
                                                  (node china_bar)) 0 [india_id]) 0 []))
  = [Some (VNum 1); Some (VNum 1); Some (VNum 1); Some (VNum 1)].
Proof.
  pose (w := click (click four_bars (node india_bar)) (node china_bar)).
  destruct (last_result_decides sample_host w 0 0
              {| then_bars := [0; 1; 2; 3]; then_this := 2 |}
              {| then_bars := [0; 1; 2; 3]; then_this := 0 |} [india_id] [] eq_refl eq_refl)
    as (H & _).
  - intros r Hr. apply (list_elem_of_fmap_2 node) in Hr.
    assert (Hnodes : node <$> barContainer (visual w) = [0; 1; 2; 3])
      by (vm_compute; reflexivity).
    rewrite Hnodes in Hr. exact Hr.
  - fold w. rewrite H. vm_compute. reflexivity.
Defined.
